(** * gitact: the dashboard's aggregation and view-state core

    A shallow embedding of the Go sources of the terminal dashboard:
    the data records, [calculateStats], [getTopRepos], [getGrade],
    the pagination loop of [fetchPublicRepos] and the Bubble Tea
    [Model.Update] reducer, followed by the properties of the
    specification that concern them. *)

From Stdlib Require Import ZArith Lia Bool List QArith Lqa PrimFloat Uint63.
From stdpp Require Import base tactics option list strings pretty gmap
  fin_maps sorting.

Local Open Scope string_scope.
Local Open Scope Z_scope.
Local Open Scope list_scope.

(** ** Go's [int] on a 64-bit platform

    Values are integers in [-2^63, 2^63); arithmetic wraps around. *)
Module GoInt.

Definition min_int : Z := - 2 ^ 63.
Definition max_int : Z := 2 ^ 63 - 1.

Definition wrap (z : Z) : Z := (z + 2 ^ 63) mod 2 ^ 64 - 2 ^ 63.

Definition add (a b : Z) : Z := wrap (a + b).
Definition sub (a b : Z) : Z := wrap (a - b).
(** [x++] *)
Definition incr (a : Z) : Z := add a 1.

Definition in_range (z : Z) : Prop := min_int <= z <= max_int.

End GoInt.

(** ** Records of the data file (events, statistics, repositories) *)

(** [time.Time]: an instant, counted in nanoseconds from the zero value
    of the type (January 1, year 1, 00:00:00 UTC).  Instants before the
    zero value are representable and are negative here. *)
Definition Time : Type := Z.
Definition zeroTime : Time := 0.
(** [t.After(u)] *)
Definition After (t u : Time) : bool := u <? t.

Record Actor := { Login : string }.

Record Repo := { Repo_Name : string; Repo_URL : string }.

Record Commit := { SHA : string; Message : string }.
Record Issue := { Issue_Title : string; Issue_State : string }.
Record PullRequest := { PR_Title : string; PR_State : string }.

Record Payload := {
  Action : string;
  RefType : string;
  Ref : string;
  Commits : list Commit;
  Payload_Issue : option Issue;
  Payload_PullRequest : option PullRequest
}.

Record GitHubEvent := {
  Type_ : string;
  Event_Actor : Actor;
  Event_Repo : Repo;
  Event_Payload : Payload;
  CreatedAt : Time
}.

Record GitHubStats := {
  PushEvents : Z;
  IssueEvents : Z;
  WatchEvents : Z;
  ForkEvents : Z;
  CreateEvents : Z;
  DeleteEvents : Z;
  PullRequestEvents : Z;
  ReleaseEvents : Z;
  PublicEvents : Z;
  OtherEvents : Z;
  TotalEvents : Z
}.

Record RepoInfo := {
  Name : string;
  URL : string;
  CloneURL : string;
  Count : Z;
  LastActivity : Time;
  Description : string
}.

Record PublicRepo := {
  PR_Name : string;
  FullName : string;
  PR_Description : string;
  PR_URL : string;
  PR_CloneURL : string;
  Stars : Z;
  Forks : Z;
  Language : string;
  PR_CreatedAt : Time;
  UpdatedAt : Time;
  Private : bool
}.

(** The zero values Go gives to declared-but-unset variables. *)
Definition zeroStats : GitHubStats :=
  {| PushEvents := 0; IssueEvents := 0; WatchEvents := 0; ForkEvents := 0;
     CreateEvents := 0; DeleteEvents := 0; PullRequestEvents := 0;
     ReleaseEvents := 0; PublicEvents := 0; OtherEvents := 0;
     TotalEvents := 0 |}.

Definition emptyPayload : Payload :=
  {| Action := ""; RefType := ""; Ref := ""; Commits := [];
     Payload_Issue := None; Payload_PullRequest := None |}.

(** An event as the decoder builds it from a JSON object that carries
    a kind, a repository name and a creation instant. *)
Definition mkEvent (kind repo : string) (t : Time) : GitHubEvent :=
  {| Type_ := kind; Event_Actor := {| Login := "" |};
     Event_Repo := {| Repo_Name := repo; Repo_URL := "" |};
     Event_Payload := emptyPayload; CreatedAt := t |}.

(** ** [calculateStats] *)

(** One iteration of the loop body: the total is incremented, then the
    [switch] on the kind tag increments one counter. *)
Definition countEvent (stats : GitHubStats) (event : GitHubEvent)
  : GitHubStats :=
  let total := GoInt.incr (TotalEvents stats) in
  let push := PushEvents stats in
  let issue := IssueEvents stats in
  let watch := WatchEvents stats in
  let fork := ForkEvents stats in
  let create := CreateEvents stats in
  let del := DeleteEvents stats in
  let pr := PullRequestEvents stats in
  let rel := ReleaseEvents stats in
  let pub := PublicEvents stats in
  let other := OtherEvents stats in
  let k := Type_ event in
  if String.eqb k "PushEvent" then
    Build_GitHubStats (GoInt.incr push) issue watch fork create del pr rel
      pub other total
  else if String.eqb k "IssuesEvent" then
    Build_GitHubStats push (GoInt.incr issue) watch fork create del pr rel
      pub other total
  else if String.eqb k "WatchEvent" then
    Build_GitHubStats push issue (GoInt.incr watch) fork create del pr rel
      pub other total
  else if String.eqb k "ForkEvent" then
    Build_GitHubStats push issue watch (GoInt.incr fork) create del pr rel
      pub other total
  else if String.eqb k "CreateEvent" then
    Build_GitHubStats push issue watch fork (GoInt.incr create) del pr rel
      pub other total
  else if String.eqb k "DeleteEvent" then
    Build_GitHubStats push issue watch fork create (GoInt.incr del) pr rel
      pub other total
  else if String.eqb k "PullRequestEvent" then
    Build_GitHubStats push issue watch fork create del (GoInt.incr pr) rel
      pub other total
  else if String.eqb k "ReleaseEvent" then
    Build_GitHubStats push issue watch fork create del pr (GoInt.incr rel)
      pub other total
  else if String.eqb k "PublicEvent" then
    Build_GitHubStats push issue watch fork create del pr rel (GoInt.incr
      pub) other total
  else
    Build_GitHubStats push issue watch fork create del pr rel pub
      (GoInt.incr other) total.

Definition calculateStats (events : list GitHubEvent) : GitHubStats :=
  fold_left countEvent events zeroStats.

(** The sum of the nine named event-kind counters. *)
Definition nineBuckets (s : GitHubStats) : Z :=
  PushEvents s + IssueEvents s + WatchEvents s + ForkEvents s +
  CreateEvents s + DeleteEvents s + PullRequestEvents s +
  ReleaseEvents s + PublicEvents s.

(** What the loop maintains after [n] events: every counter is between
    0 and [n], the total is [n], and the ten counters add up to it. *)
Record stats_inv (n : Z) (s : GitHubStats) : Prop := {
  inv_total : TotalEvents s = n;
  inv_sum : nineBuckets s + OtherEvents s = n;
  inv_nonneg :
    0 <= PushEvents s /\ 0 <= IssueEvents s /\ 0 <= WatchEvents s /\
    0 <= ForkEvents s /\ 0 <= CreateEvents s /\ 0 <= DeleteEvents s /\
    0 <= PullRequestEvents s /\ 0 <= ReleaseEvents s /\
    0 <= PublicEvents s /\ 0 <= OtherEvents s
}.

(** ** [getGrade]

    The score is a sum of event counts weighted by 1.0, 3.0, 1.0, 1.5
    and 0.5, so it is a multiple of one half.  [getGrade] computes it
    on exact rationals; [getGrade_float64] below runs the same text on
    binary64 numbers, where these operations are exact as long as the
    counters stay below 2^50 in magnitude; beyond that a non-negative
    record scores far above the top threshold in both. *)
Definition weightedScore (stats : GitHubStats) : Q :=
  (inject_Z (PushEvents stats) * 1.0 +
   inject_Z (PullRequestEvents stats) * 3.0 +
   inject_Z (CreateEvents stats) * 1.0 +
   inject_Z (IssueEvents stats) * 1.5 +
   inject_Z (WatchEvents stats) * 0.5)%Q.

Definition getGrade (stats : GitHubStats) : string :=
  if TotalEvents stats =? 0 then "F"
  else
    let score := weightedScore stats in
    if Qle_bool 100 score then "S+"
    else if Qle_bool 70 score then "S"
    else if Qle_bool 40 score then "A+"
    else if Qle_bool 25 score then "A"
    else if Qle_bool 15 score then "B+"
    else if Qle_bool 8 score then "B"
    else if Qle_bool 3 score then "C"
    else if Qle_bool 1 score then "D"
    else "F".

(** [float64(n)] for an [int] of magnitude below 2^63. *)
Definition float64_of_int (n : Z) : float :=
  if n <? 0 then PrimFloat.opp (PrimFloat.of_uint63 (Uint63.of_Z (- n)))
  else PrimFloat.of_uint63 (Uint63.of_Z n).

Definition weightedScore_float64 (stats : GitHubStats) : float :=
  (float64_of_int (PushEvents stats) * 1.0 +
   float64_of_int (PullRequestEvents stats) * 3.0 +
   float64_of_int (CreateEvents stats) * 1.0 +
   float64_of_int (IssueEvents stats) * 1.5 +
   float64_of_int (WatchEvents stats) * 0.5)%float.

Definition getGrade_float64 (stats : GitHubStats) : string :=
  if TotalEvents stats =? 0 then "F"
  else
    let score := weightedScore_float64 stats in
    if PrimFloat.leb 100 score then "S+"
    else if PrimFloat.leb 70 score then "S"
    else if PrimFloat.leb 40 score then "A+"
    else if PrimFloat.leb 25 score then "A"
    else if PrimFloat.leb 15 score then "B+"
    else if PrimFloat.leb 8 score then "B"
    else if PrimFloat.leb 3 score then "C"
    else if PrimFloat.leb 1 score then "D"
    else "F".

(** The grading table in the words of the specification: eight fixed
    thresholds cut the score axis into nine ordinal bands. *)
Definition gradeThresholds : list Q := [1; 3; 8; 15; 25; 40; 70; 100]%Q.
Definition gradeBands : list string :=
  ["F"; "D"; "C"; "B"; "B+"; "A"; "A+"; "S"; "S+"].

(** The band of a score: as many steps up as thresholds reached. *)
Definition bandOfScore (score : Q) : string :=
  nth (length (List.filter (fun t => Qle_bool t score) gradeThresholds))
      gradeBands "F".

(** The scenario of the specification: three pushes, two issue events
    and one star. *)
Definition scenarioEvents : list GitHubEvent :=
  [ mkEvent "PushEvent" "octocat/hello" 30;
    mkEvent "PushEvent" "octocat/hello" 20;
    mkEvent "PushEvent" "octocat/world" 10;
    mkEvent "IssuesEvent" "octocat/hello" 9;
    mkEvent "IssuesEvent" "octocat/world" 8;
    mkEvent "WatchEvent" "octocat/spoon" 7 ].

(** All statistics with [push], [create] and [watch] below 4, [issue]
    below 8 and [pr] below 36: their scores cover every half-integer
    from 0 to 100 and beyond, hence every band. *)
Definition smallStats : list GitHubStats :=
  let upto n := map Z.of_nat (seq 0 n) in
  push ← upto 4%nat; pr ← upto 36%nat; create ← upto 4%nat;
  issue ← upto 8%nat; watch ← upto 4%nat;
  [ {| PushEvents := push; IssueEvents := issue; WatchEvents := watch;
       ForkEvents := 0; CreateEvents := create; DeleteEvents := 0;
       PullRequestEvents := pr; ReleaseEvents := 0; PublicEvents := 0;
       OtherEvents := 0; TotalEvents := push + issue + watch + create + pr |} ].

(** ** [getTopRepos] *)

(** The two maps filled by the counting loop. *)
Record Tally := {
  repoCount : gmap string Z;
  reposLastAct : gmap string Time
}.

Definition emptyTally : Tally := {| repoCount := ∅; reposLastAct := ∅ |}.

(** Body of the counting loop.  Reading a missing key of a Go map
    gives the zero value of the element type. *)
Definition tallyEvent (t : Tally) (ev : GitHubEvent) : Tally :=
  let name := Repo_Name (Event_Repo ev) in
  if String.eqb name "" then t
  else
    {| repoCount :=
         <[name := GoInt.incr (default 0 (repoCount t !! name))]> (repoCount t);
       reposLastAct :=
         if After (CreatedAt ev) (default zeroTime (reposLastAct t !! name))
         then <[name := CreatedAt ev]> (reposLastAct t)
         else reposLastAct t |}.

Definition tallyEvents (events : list GitHubEvent) : Tally :=
  fold_left tallyEvent events emptyTally.

(** The entry appended for one key of [repoCount]. *)
Definition repoEntry (t : Tally) (name : string) : RepoInfo :=
  {| Name := name;
     URL := "https://github.com/" +:+ name;
     CloneURL := "https://github.com/" +:+ name +:+ ".git";
     Count := default 0 (repoCount t !! name);
     LastActivity := default zeroTime (reposLastAct t !! name);
     Description := "" |}.

(** [for name, count := range repoCount]: Go leaves the iteration
    order of a map unspecified, so the order in which the run time
    hands out the keys is an argument, [order]. *)
Definition rangeEntries (order : list string) (t : Tally) : list RepoInfo :=
  map (repoEntry t) order.

(** [order] is a legal iteration of the map: every key once. *)
Definition iterates (order : list string) (t : Tally) : Prop :=
  order ≡ₚ elements (dom (repoCount t)).

(** The exchange sort.  Loop counters are natural numbers: with an
    empty slice [len(repos)-1] is negative and the loop body never
    runs, which truncated subtraction gives as well.  [None] is the
    run-time panic of an index out of range. *)
Definition swapIfLess (j : nat) (repos : list RepoInfo)
  : option (list RepoInfo) :=
  a ← repos !! j;
  b ← repos !! S j;
  Some (if Count a <? Count b then <[S j := a]> (<[j := b]> repos) else repos).

(** [n] iterations of the inner loop, the first one at index [j]. *)
Fixpoint innerLoop (n j : nat) (repos : list RepoInfo)
  : option (list RepoInfo) :=
  match n with
  | O => Some repos
  | S n' => repos' ← swapIfLess j repos; innerLoop n' (S j) repos'
  end.

(** [n] iterations of the outer loop, the first one with counter [i]. *)
Fixpoint outerLoop (n i : nat) (repos : list RepoInfo)
  : option (list RepoInfo) :=
  match n with
  | O => Some repos
  | S n' =>
      repos' ← innerLoop (length repos - i - 1) 0 repos;
      outerLoop n' (S i) repos'
  end.

Definition bubbleSort (repos : list RepoInfo) : option (list RepoInfo) :=
  outerLoop (length repos - 1) 0 repos.

Definition getTopRepos (order : list string) (events : list GitHubEvent)
  : option (list RepoInfo) :=
  bubbleSort (rangeEntries order (tallyEvents events)).

(** Reference notions for the statements about [getTopRepos]. *)
Definition eventsOfRepo (name : string) (events : list GitHubEvent)
  : list GitHubEvent :=
  filter (fun ev => Repo_Name (Event_Repo ev) = name) events.

Definition timesOfRepo (name : string) (events : list GitHubEvent)
  : list Time :=
  map CreatedAt (eventsOfRepo name events).

(** The running maximum the loop keeps: it starts from the zero value
    of [time.Time]. *)
Definition latestOf (ts : list Time) : Time := foldr Z.max zeroTime ts.

(** [t] is the greatest element of [ts]. *)
Definition isMaximumOf (t : Time) (ts : list Time) : Prop :=
  t ∈ ts /\ Forall (fun u => u <= t) ts.

(** Non-increasing by [Count]. *)
Definition byCountDesc (a b : RepoInfo) : Prop := Count b <= Count a.

(** One compare-exchange sweep over the first [n] adjacent pairs of a
    list, written by recursion on the list; the proofs relate the
    indexed inner loop to it. *)
Fixpoint sweep (n : nat) (l : list RepoInfo) : list RepoInfo :=
  match n, l with
  | S n', a :: b :: t =>
      if Count a <? Count b then b :: sweep n' (a :: t) else a :: sweep n' (b :: t)
  | _, _ => l
  end.

(** The invariant of the outer loop: the last [k] entries are in their
    final place. *)
Definition settled (k : nat) (l : list RepoInfo) : Prop :=
  exists front back,
    l = front ++ back /\ length back = k /\
    StronglySorted byCountDesc back /\
    Forall (fun x => Forall (fun y => Count y <= Count x) back) front.

(** ** [fetchPublicRepos]

    The HTTP exchange is outside the program; what it hands back for
    the request of one page is a [PageReply]. *)
Inductive PageBody :=
| Unreadable (err : string)
| Malformed (err : string)
| Decoded (repos : list PublicRepo).

Inductive PageReply :=
| RequestFailed (err : string)
| TransportFailed (err : string)
| Replied (status : Z) (body : PageBody).

Inductive FetchResult :=
| Fetched (repos : list PublicRepo)
| FetchError (err : string).

Definition perPage : Z := 100.

(** The loop of [fetchPublicRepos]; [fuel] bounds the number of pages
    requested and [None] means that the bound was reached before the
    loop left.  [server] answers the request for a page number. *)
Fixpoint fetchPages (server : Z -> PageReply) (username : string)
    (fuel : nat) (page : Z) (allRepos : list PublicRepo) : option FetchResult :=
  match fuel with
  | O => None
  | S fuel' =>
      match server page with
      | RequestFailed err =>
          Some (FetchError ("error creating the request: " +:+ err))
      | TransportFailed err =>
          Some (FetchError ("request http error: " +:+ err))
      | Replied status body =>
          if status =? 404 then
            Some (FetchError ("user '" +:+ username +:+ "' not found"))
          else if negb (status =? 200) then
            Some (FetchError ("http error " +:+ pretty status))
          else
            match body with
            | Unreadable err =>
                Some (FetchError ("error reading response: " +:+ err))
            | Malformed err =>
                Some (FetchError ("error parsing JSON: " +:+ err))
            | Decoded repos =>
                if Z.of_nat (length repos) =? 0 then Some (Fetched allRepos)
                else
                  let allRepos' :=
                    allRepos ++ filter (fun repo => Private repo = false) repos in
                  if Z.of_nat (length repos) <? perPage then Some (Fetched allRepos')
                  else fetchPages server username fuel' (GoInt.incr page) allRepos'
            end
      end
  end.

Definition fetchPublicRepos (server : Z -> PageReply) (username : string)
    (fuel : nat) : option FetchResult :=
  fetchPages server username fuel 1 [].

(** The number of the [k]-th page requested, counting from 0. *)
Definition pageNumber (k : nat) : Z := Nat.iter k GoInt.incr 1.

(** The repositories a reply carries when it is a decoded 200. *)
Definition pagePayload (r : PageReply) : list PublicRepo :=
  match r with
  | Replied status (Decoded repos) => if status =? 200 then repos else []
  | _ => []
  end.

(** The raw payload of the first [n] pages, in order. *)
Definition rawPayload (server : Z -> PageReply) (n : nat) : list PublicRepo :=
  flat_map (fun k => pagePayload (server (pageNumber k))) (seq 0 n).

(** A reply that ends the loop with success: a decoded 200 page with
    fewer than [perPage] entries (an empty page among them). *)
Definition lastPage (r : PageReply) : bool :=
  match r with
  | Replied status (Decoded repos) =>
      (status =? 200) && (Z.of_nat (length repos) <? perPage)
  | _ => false
  end.

(** A reply after which the loop goes on to the next page. *)
Definition fullPage (r : PageReply) : bool :=
  match r with
  | Replied status (Decoded repos) =>
      (status =? 200) && negb (Z.of_nat (length repos) <? perPage)
  | _ => false
  end.

(** The loop reads the pages numbered 0 to [n]: the first [n] are full
    and the last one ends it. *)
Definition readsPages (server : Z -> PageReply) (n : nat) : Prop :=
  (forall k, (k < n)%nat -> fullPage (server (pageNumber k)) = true) /\
  lastPage (server (pageNumber n)) = true.

(** A repository record with the fields that matter below. *)
Definition mkRepo (name : string) (stars : Z) (private : bool) : PublicRepo :=
  {| PR_Name := name; FullName := "octocat/" +:+ name; PR_Description := "";
     PR_URL := "https://github.com/octocat/" +:+ name;
     PR_CloneURL := "https://github.com/octocat/" +:+ name +:+ ".git";
     Stars := stars; Forks := 0; Language := "Go"; PR_CreatedAt := 0;
     UpdatedAt := 0; Private := private |}.

(** A server with a single short page that mixes private and public
    entries. *)
Definition mixedServer (page : Z) : PageReply :=
  if page =? 1 then
    Replied 200 (Decoded [mkRepo "secret" 9 true; mkRepo "hello" 5 false;
                          mkRepo "vault" 3 true; mkRepo "world" 1 false])
  else Replied 200 (Decoded []).

(** ** The Bubble Tea program: messages, commands and components *)

Inductive viewMode := repoListView | repoTableView | statsView | activityView.

(** [list.Item]: the two item types of the program. *)
Inductive Item :=
| repoItem (repo : PublicRepo)
| activityItem (event : GitHubEvent).

(** [tea.KeyMsg], as far as the program looks at it: the key type, the
    runes typed and the alt modifier.  [KeyNamed] stands for the named
    keys the program never tests by type. *)
Inductive KeyType :=
| KeyRunes | KeyEsc | KeyCtrlC | KeyEnter | KeyTab
| KeyUp | KeyDown | KeyLeft | KeyRight
| KeyNamed (name : string).

Record Key := { Key_Type : KeyType; Runes : string; Alt : bool }.

(** [msg.String()] *)
Definition Key_String (k : Key) : string :=
  (if Alt k then "alt+" else "") +:+
  match Key_Type k with
  | KeyRunes => Runes k
  | KeyEsc => "esc"
  | KeyCtrlC => "ctrl+c"
  | KeyEnter => "enter"
  | KeyTab => "tab"
  | KeyUp => "up"
  | KeyDown => "down"
  | KeyLeft => "left"
  | KeyRight => "right"
  | KeyNamed name => name
  end.

(** A plain rune key. *)
Definition runeKey (s : string) : Key :=
  {| Key_Type := KeyRunes; Runes := s; Alt := false |}.

(** [key.Binding] and [key.Matches]; no binding is ever disabled. *)
Record Binding := { binding_keys : list string; binding_help : string * string }.

Definition key_Matches (k : Key) (b : Binding) : bool :=
  existsb (String.eqb (Key_String k)) (binding_keys b).

(** The bindings of the variable [keys]. *)
Definition keys_Up : Binding :=
  {| binding_keys := ["up"; "k"]; binding_help := ("↑/k", "move up") |}.
Definition keys_Down : Binding :=
  {| binding_keys := ["down"; "j"]; binding_help := ("↓/j", "move down") |}.
Definition keys_Left : Binding :=
  {| binding_keys := ["left"; "h"]; binding_help := ("←/h", "previous tab") |}.
Definition keys_Right : Binding :=
  {| binding_keys := ["right"; "l"]; binding_help := ("→/l", "next tab") |}.
Definition keys_Help : Binding :=
  {| binding_keys := ["?"]; binding_help := ("?", "toggle help") |}.
Definition keys_Quit : Binding :=
  {| binding_keys := ["q"; "esc"; "ctrl+c"]; binding_help := ("q", "quit") |}.
Definition keys_Enter : Binding :=
  {| binding_keys := ["enter"]; binding_help := ("enter", "select") |}.
Definition keys_Clone : Binding :=
  {| binding_keys := ["c"]; binding_help := ("c", "clone repo") |}.
Definition keys_Copy : Binding :=
  {| binding_keys := ["x"]; binding_help := ("x", "copy URL") |}.
Definition keys_Open : Binding :=
  {| binding_keys := ["o"]; binding_help := ("o", "open in browser") |}.
Definition keys_Search : Binding :=
  {| binding_keys := ["/"]; binding_help := ("/", "search") |}.
Definition keys_Refresh : Binding :=
  {| binding_keys := ["r"]; binding_help := ("r", "refresh") |}.
Definition keys_Tab : Binding :=
  {| binding_keys := ["tab"]; binding_help := ("tab", "switch view") |}.

(** [tea.Msg]: the message types that [Update] tells apart.  An [error]
    is its text; [None] is [nil].  [foreignMsg] is any message of
    another type (mouse events, cursor blinks, ...). *)
Inductive Msg :=
| WindowSizeMsg (Width Height : Z)
| reposLoadedMsg (repos : list PublicRepo) (err : option string)
| eventsLoadedMsg (events : list GitHubEvent) (stats : GitHubStats) (err : option string)
| NotificationMsg (message : string) (isSuccess : bool)
| ClearNotificationMsg
| spinner_TickMsg (tag : Z)
| KeyMsg (k : Key)
| foreignMsg (tag : string).

(** [tea.Cmd]: a description of the effect handed back to the run
    time.  [tea_Tick d msg] delivers [msg] once [d] has elapsed.
    [componentCmd] is a command made by a library component, known by
    a tag only; the library cannot name the message types of this
    program, so such a command produces none of them. *)
#[warnings="-register-all"]
Inductive Cmd :=
| nilCmd
| tea_Quit
| tea_Tick (d : Z) (msg : Msg)
| tea_Batch (cmds : list Cmd)
| loadReposCmd (username : string)
| loadEventsCmd (username : string)
| cloneRepoCmd (repo : PublicRepo)
| copyURLCmd (repo : PublicRepo)
| openInBrowserCmd (repo : PublicRepo)
| textinput_Blink
| spinner_TickCmd
| componentCmd (tag : Z).

(** [time.Second], a [time.Duration] in nanoseconds. *)
Definition time_Second : Z := 1000000000.

(** What the run time delivers when it has run a load command: the
    outcome of the fetch, wrapped as the closures of [loadReposCmd] and
    [loadEventsCmd] wrap it. *)
Definition reposLoaded_of (r : FetchResult) : Msg :=
  match r with
  | Fetched repos => reposLoadedMsg repos None
  | FetchError err => reposLoadedMsg [] (Some err)
  end.

Definition eventsLoaded_of (r : list GitHubEvent + string) : Msg :=
  match r with
  | inr err => eventsLoadedMsg [] zeroStats (Some err)
  | inl events => eventsLoadedMsg events (calculateStats events) None
  end.

(** The messages of the three action commands, given the outcome of
    the clipboard or browser call ([None]: no error). *)
Definition cloneRepo_msg (outcome : option string) (repo : PublicRepo) : Msg :=
  match outcome with
  | Some err => NotificationMsg ("❌ Copy Error: " +:+ err) false
  | None => NotificationMsg ("📋 Clone command copied: " +:+ PR_Name repo) true
  end.

Definition copyURL_msg (outcome : option string) (repo : PublicRepo) : Msg :=
  match outcome with
  | Some err => NotificationMsg ("❌ Copy Error: " +:+ err) false
  | None => NotificationMsg ("📋 URL copied: " +:+ PR_Name repo) true
  end.

Definition openInBrowser_msg (GOOS : string) (outcome : option string)
    (repo : PublicRepo) : Msg :=
  if String.eqb GOOS "darwin" || String.eqb GOOS "linux" || String.eqb GOOS "windows"
  then
    match outcome with
    | Some err => NotificationMsg ("❌ Error opening browser: " +:+ err) false
    | None => NotificationMsg ("🌐 Opened in browser: " +:+ PR_Name repo) true
    end
  else NotificationMsg "❌ OS not supported for opening browser" false.

(** The timers a command arms when it is handed back at instant [now]. *)
Record Pending := { due : Z; payload : Msg }.

Fixpoint ticksOf (now : Z) (c : Cmd) : list Pending :=
  match c with
  | tea_Tick d msg => [{| due := now + d; payload := msg |}]
  | tea_Batch cmds => flat_map (ticksOf now) cmds
  | _ => []
  end.

Definition isClear (msg : Msg) : bool :=
  match msg with ClearNotificationMsg => true | _ => false end.

(** The command schedules a [ClearNotificationMsg]. *)
Definition schedulesClear (c : Cmd) : bool :=
  existsb (fun p => isClear (payload p)) (ticksOf 0 c).

(** A table column and a table row. *)
Record Column := { Column_Title : string; Column_Width : Z }.
Definition Row : Type := list string.

(** The components of the bubbles library and the formatting routines
    of Go's standard library, as the program calls them.  The types of
    the components are abstract; an exported field the program assigns
    is an operation [_set_]; an [Update] hands back the new component
    and the tag of its command. *)
Class Bubbles := {
  list_Model : Type;
  list_New : list Item -> Z -> Z -> list_Model;
  list_SetShowStatusBar : bool -> list_Model -> list_Model;
  list_SetFilteringEnabled : bool -> list_Model -> list_Model;
  list_set_Title : string -> list_Model -> list_Model;
  list_SetItems : list Item -> list_Model -> list_Model;
  list_SetSize : Z -> Z -> list_Model -> list_Model;
  list_SelectedItem : list_Model -> option Item;
  list_Update : Msg -> list_Model -> list_Model * Z;

  table_Model : Type;
  table_New : table_Model;
  table_New_with : list Column -> list Row -> bool -> Z -> table_Model;
  table_Columns : table_Model -> list Column;
  table_Rows : table_Model -> list Row;
  table_SetStyles : table_Model -> table_Model;
  table_Update : Msg -> table_Model -> table_Model * Z;

  viewport_Model : Type;
  viewport_New : Z -> Z -> viewport_Model;
  viewport_set_Width : Z -> viewport_Model -> viewport_Model;
  viewport_set_Height : Z -> viewport_Model -> viewport_Model;
  viewport_SetContent : string -> viewport_Model -> viewport_Model;
  viewport_Update : Msg -> viewport_Model -> viewport_Model * Z;

  help_Model : Type;
  help_New : help_Model;
  help_set_Width : Z -> help_Model -> help_Model;
  help_ShowAll : help_Model -> bool;
  help_set_ShowAll : bool -> help_Model -> help_Model;

  spinner_Model : Type;
  spinner_New : spinner_Model;
  spinner_set_Spinner : string -> spinner_Model -> spinner_Model;
  spinner_set_Style : string -> spinner_Model -> spinner_Model;
  spinner_Update : Msg -> spinner_Model -> spinner_Model * Z;

  textinput_Model : Type;
  textinput_New : textinput_Model;
  textinput_set_Placeholder : string -> textinput_Model -> textinput_Model;
  textinput_set_CharLimit : Z -> textinput_Model -> textinput_Model;
  textinput_Focus : textinput_Model -> textinput_Model;
  textinput_Blur : textinput_Model -> textinput_Model;
  textinput_SetValue : string -> textinput_Model -> textinput_Model;
  textinput_Value : textinput_Model -> string;
  textinput_Update : Msg -> textinput_Model -> textinput_Model * Z;

  progress_Model : Type;
  progress_zero : progress_Model;
  paginator_Model : Type;
  paginator_zero : paginator_Model;

  (** [fmt.Sprintf("%.1f", float64(n)/d)] *)
  sprintf_1f : Z -> Z -> string;
  (** [t.Format(layout)] *)
  time_Format : string -> Time -> string;
  strings_ToLower : string -> string;
  (** The text block of the statistics view; it is styled by lipgloss
      and lists the languages in the iteration order of a map. *)
  renderDetailedStats :
    list PublicRepo -> list GitHubEvent -> GitHubStats -> string
}.

(** [strings.Contains] *)
Fixpoint strings_Contains (s substr : string) : bool :=
  String.prefix substr s ||
  match s with
  | EmptyString => false
  | String _ s' => strings_Contains s' substr
  end.

Section Dashboard.
Context {B : Bubbles}.

Definition formatNumber (n : Z) : string :=
  if 1000000 <=? n then sprintf_1f n 1000000 +:+ "M"
  else if 1000 <=? n then sprintf_1f n 1000 +:+ "k"
  else pretty n.

(** The program state, field for field.  The field [list] of the source
    is [list_] here. *)
Record Model := {
  username : string;
  events : list GitHubEvent;
  repos : list RepoInfo;
  publicRepos : list PublicRepo;
  stats : GitHubStats;
  list_ : list_Model;
  table : table_Model;
  viewport : viewport_Model;
  help : help_Model;
  spinner : spinner_Model;
  progress : progress_Model;
  search : textinput_Model;
  paginator : paginator_Model;
  currentView : viewMode;
  loading : bool;
  showHelp : bool;
  searchMode : bool;
  notification : string;
  notifSuccess : bool;
  width : Z;
  height : Z;
  ready : bool;
  reposLoaded : bool;
  eventsLoaded : bool
}.

(** Assignment to one field, [m.f = v], as a function on models. *)
Definition set_events (v : list GitHubEvent) (m : Model) : Model :=
  Build_Model (username m) v (repos m) (publicRepos m) (stats m) (list_ m)
    (table m) (viewport m) (help m) (spinner m) (progress m) (search m)
    (paginator m) (currentView m) (loading m) (showHelp m) (searchMode m)
    (notification m) (notifSuccess m) (width m) (height m) (ready m)
    (reposLoaded m) (eventsLoaded m).

Definition set_publicRepos (v : list PublicRepo) (m : Model) : Model :=
  Build_Model (username m) (events m) (repos m) v (stats m) (list_ m)
    (table m) (viewport m) (help m) (spinner m) (progress m) (search m)
    (paginator m) (currentView m) (loading m) (showHelp m) (searchMode m)
    (notification m) (notifSuccess m) (width m) (height m) (ready m)
    (reposLoaded m) (eventsLoaded m).

Definition set_stats (v : GitHubStats) (m : Model) : Model :=
  Build_Model (username m) (events m) (repos m) (publicRepos m) v (list_ m)
    (table m) (viewport m) (help m) (spinner m) (progress m) (search m)
    (paginator m) (currentView m) (loading m) (showHelp m) (searchMode m)
    (notification m) (notifSuccess m) (width m) (height m) (ready m)
    (reposLoaded m) (eventsLoaded m).

Definition set_list (v : list_Model) (m : Model) : Model :=
  Build_Model (username m) (events m) (repos m) (publicRepos m) (stats m) v
    (table m) (viewport m) (help m) (spinner m) (progress m) (search m)
    (paginator m) (currentView m) (loading m) (showHelp m) (searchMode m)
    (notification m) (notifSuccess m) (width m) (height m) (ready m)
    (reposLoaded m) (eventsLoaded m).

Definition set_table (v : table_Model) (m : Model) : Model :=
  Build_Model (username m) (events m) (repos m) (publicRepos m) (stats m)
    (list_ m) v (viewport m) (help m) (spinner m) (progress m) (search m)
    (paginator m) (currentView m) (loading m) (showHelp m) (searchMode m)
    (notification m) (notifSuccess m) (width m) (height m) (ready m)
    (reposLoaded m) (eventsLoaded m).

Definition set_viewport (v : viewport_Model) (m : Model) : Model :=
  Build_Model (username m) (events m) (repos m) (publicRepos m) (stats m)
    (list_ m) (table m) v (help m) (spinner m) (progress m) (search m)
    (paginator m) (currentView m) (loading m) (showHelp m) (searchMode m)
    (notification m) (notifSuccess m) (width m) (height m) (ready m)
    (reposLoaded m) (eventsLoaded m).

Definition set_help (v : help_Model) (m : Model) : Model :=
  Build_Model (username m) (events m) (repos m) (publicRepos m) (stats m)
    (list_ m) (table m) (viewport m) v (spinner m) (progress m) (search m)
    (paginator m) (currentView m) (loading m) (showHelp m) (searchMode m)
    (notification m) (notifSuccess m) (width m) (height m) (ready m)
    (reposLoaded m) (eventsLoaded m).

Definition set_spinner (v : spinner_Model) (m : Model) : Model :=
  Build_Model (username m) (events m) (repos m) (publicRepos m) (stats m)
    (list_ m) (table m) (viewport m) (help m) v (progress m) (search m)
    (paginator m) (currentView m) (loading m) (showHelp m) (searchMode m)
    (notification m) (notifSuccess m) (width m) (height m) (ready m)
    (reposLoaded m) (eventsLoaded m).

Definition set_search (v : textinput_Model) (m : Model) : Model :=
  Build_Model (username m) (events m) (repos m) (publicRepos m) (stats m)
    (list_ m) (table m) (viewport m) (help m) (spinner m) (progress m) v
    (paginator m) (currentView m) (loading m) (showHelp m) (searchMode m)
    (notification m) (notifSuccess m) (width m) (height m) (ready m)
    (reposLoaded m) (eventsLoaded m).

Definition set_currentView (v : viewMode) (m : Model) : Model :=
  Build_Model (username m) (events m) (repos m) (publicRepos m) (stats m)
    (list_ m) (table m) (viewport m) (help m) (spinner m) (progress m)
    (search m) (paginator m) v (loading m) (showHelp m) (searchMode m)
    (notification m) (notifSuccess m) (width m) (height m) (ready m)
    (reposLoaded m) (eventsLoaded m).

Definition set_loading (v : bool) (m : Model) : Model :=
  Build_Model (username m) (events m) (repos m) (publicRepos m) (stats m)
    (list_ m) (table m) (viewport m) (help m) (spinner m) (progress m)
    (search m) (paginator m) (currentView m) v (showHelp m) (searchMode m)
    (notification m) (notifSuccess m) (width m) (height m) (ready m)
    (reposLoaded m) (eventsLoaded m).

Definition set_searchMode (v : bool) (m : Model) : Model :=
  Build_Model (username m) (events m) (repos m) (publicRepos m) (stats m)
    (list_ m) (table m) (viewport m) (help m) (spinner m) (progress m)
    (search m) (paginator m) (currentView m) (loading m) (showHelp m) v
    (notification m) (notifSuccess m) (width m) (height m) (ready m)
    (reposLoaded m) (eventsLoaded m).

Definition set_notification (v : string) (m : Model) : Model :=
  Build_Model (username m) (events m) (repos m) (publicRepos m) (stats m)
    (list_ m) (table m) (viewport m) (help m) (spinner m) (progress m)
    (search m) (paginator m) (currentView m) (loading m) (showHelp m)
    (searchMode m) v (notifSuccess m) (width m) (height m) (ready m)
    (reposLoaded m) (eventsLoaded m).

Definition set_notifSuccess (v : bool) (m : Model) : Model :=
  Build_Model (username m) (events m) (repos m) (publicRepos m) (stats m)
    (list_ m) (table m) (viewport m) (help m) (spinner m) (progress m)
    (search m) (paginator m) (currentView m) (loading m) (showHelp m)
    (searchMode m) (notification m) v (width m) (height m) (ready m)
    (reposLoaded m) (eventsLoaded m).

Definition set_width (v : Z) (m : Model) : Model :=
  Build_Model (username m) (events m) (repos m) (publicRepos m) (stats m)
    (list_ m) (table m) (viewport m) (help m) (spinner m) (progress m)
    (search m) (paginator m) (currentView m) (loading m) (showHelp m)
    (searchMode m) (notification m) (notifSuccess m) v (height m) (ready m)
    (reposLoaded m) (eventsLoaded m).

Definition set_height (v : Z) (m : Model) : Model :=
  Build_Model (username m) (events m) (repos m) (publicRepos m) (stats m)
    (list_ m) (table m) (viewport m) (help m) (spinner m) (progress m)
    (search m) (paginator m) (currentView m) (loading m) (showHelp m)
    (searchMode m) (notification m) (notifSuccess m) (width m) v (ready m)
    (reposLoaded m) (eventsLoaded m).

Definition set_ready (v : bool) (m : Model) : Model :=
  Build_Model (username m) (events m) (repos m) (publicRepos m) (stats m)
    (list_ m) (table m) (viewport m) (help m) (spinner m) (progress m)
    (search m) (paginator m) (currentView m) (loading m) (showHelp m)
    (searchMode m) (notification m) (notifSuccess m) (width m) (height m) v
    (reposLoaded m) (eventsLoaded m).

Definition set_reposLoaded (v : bool) (m : Model) : Model :=
  Build_Model (username m) (events m) (repos m) (publicRepos m) (stats m)
    (list_ m) (table m) (viewport m) (help m) (spinner m) (progress m)
    (search m) (paginator m) (currentView m) (loading m) (showHelp m)
    (searchMode m) (notification m) (notifSuccess m) (width m) (height m)
    (ready m) v (eventsLoaded m).

Definition set_eventsLoaded (v : bool) (m : Model) : Model :=
  Build_Model (username m) (events m) (repos m) (publicRepos m) (stats m)
    (list_ m) (table m) (viewport m) (help m) (spinner m) (progress m)
    (search m) (paginator m) (currentView m) (loading m) (showHelp m)
    (searchMode m) (notification m) (notifSuccess m) (width m) (height m)
    (ready m) (reposLoaded m) v.

(** [m.loadData()] and [m.Init()] *)
Definition loadData (m : Model) : Cmd :=
  tea_Batch [loadReposCmd (username m); loadEventsCmd (username m)].

Definition Init (m : Model) : Cmd :=
  tea_Batch [spinner_TickCmd; loadData m].

Definition checkLoadingComplete (m : Model) : Model :=
  if reposLoaded m && eventsLoaded m
  then set_ready true (set_loading false m)
  else m.

Definition updateRepoList (m : Model) : Model :=
  let items := map repoItem (publicRepos m) in
  set_list
    (list_set_Title
       ("📁 Public Repositories (" +:+ pretty (length (publicRepos m)) +:+ ")")
       (list_SetItems items (list_ m)))
    m.

Definition updateActivityList (m : Model) : Model :=
  let items := map activityItem (events m) in
  set_list
    (list_set_Title
       ("⚡ Recent Activity (" +:+ pretty (length (events m)) +:+ " events)")
       (list_SetItems items (list_ m)))
    m.

Definition matchesQuery (query : string) (repo : PublicRepo) : bool :=
  strings_Contains (strings_ToLower (PR_Name repo)) (strings_ToLower query) ||
  strings_Contains (strings_ToLower (PR_Description repo)) (strings_ToLower query).

Definition filterRepoList (query : string) (m : Model) : Model :=
  if String.eqb query "" then updateRepoList m
  else
    let filtered := map repoItem (List.filter (matchesQuery query) (publicRepos m)) in
    set_list
      (list_set_Title
         ("📁 Repositories matching '" +:+ query +:+ "' (" +:+
          pretty (length filtered) +:+ ")")
         (list_SetItems filtered (list_ m)))
      m.

Definition tableColumns : list Column :=
  [ {| Column_Title := "Name"; Column_Width := 25 |};
    {| Column_Title := "Stars"; Column_Width := 8 |};
    {| Column_Title := "Forks"; Column_Width := 8 |};
    {| Column_Title := "Language"; Column_Width := 12 |};
    {| Column_Title := "Updated"; Column_Width := 12 |} ].

Definition tableRow (repo : PublicRepo) : Row :=
  let lang := if String.eqb (Language repo) "" then "-" else Language repo in
  [ PR_Name repo; formatNumber (Stars repo); formatNumber (Forks repo); lang;
    time_Format "2006-01-02" (UpdatedAt repo) ].

Definition updateRepoTable (m : Model) : Model :=
  let rows := map tableRow (publicRepos m) in
  set_table
    (table_SetStyles
       (table_New_with tableColumns rows true (GoInt.sub (height m) 8)))
    m.

Definition updateTableSize (m : Model) : Model :=
  if 0 <? height m then
    let columns := table_Columns (table m) in
    let rows := table_Rows (table m) in
    set_table
      (table_SetStyles
         (table_New_with columns rows true (GoInt.sub (height m) 8)))
      m
  else m.

Definition updateStatsView (m : Model) : Model :=
  let content := renderDetailedStats (publicRepos m) (events m) (stats m) in
  set_viewport (viewport_SetContent content (viewport m)) m.

Definition nextView (m : Model) : Model :=
  let m :=
    match currentView m with
    | repoListView => set_currentView repoTableView m
    | repoTableView => set_currentView statsView m
    | statsView => set_currentView activityView m
    | activityView => set_currentView repoListView m
    end in
  match currentView m with
  | repoListView => updateRepoList m
  | activityView => updateActivityList m
  | statsView => updateStatsView m
  | repoTableView => m
  end.

Definition handleSearchInput (m : Model) (k : Key) : Model * Cmd :=
  match Key_Type k with
  | KeyEsc | KeyCtrlC =>
      let m := set_searchMode false m in
      let m := set_search (textinput_Blur (search m)) m in
      let m := set_search (textinput_SetValue "" (search m)) m in
      let m := updateRepoList m in
      (m, nilCmd)
  | KeyEnter =>
      let m := set_searchMode false m in
      let m := set_search (textinput_Blur (search m)) m in
      let m := filterRepoList (textinput_Value (search m)) m in
      (m, nilCmd)
  | _ =>
      let '(s, cmd) := textinput_Update (KeyMsg k) (search m) in
      (set_search s m, componentCmd cmd)
  end.

(** The second [switch] of the key branch: the key goes to the
    component of the current view. *)
Definition updateCurrentComponent (m : Model) (k : Key) : Model * Cmd :=
  match currentView m with
  | repoListView =>
      let '(l, cmd) := list_Update (KeyMsg k) (list_ m) in (set_list l m, componentCmd cmd)
  | repoTableView =>
      let '(t, cmd) := table_Update (KeyMsg k) (table m) in (set_table t m, componentCmd cmd)
  | activityView =>
      let '(l, cmd) := list_Update (KeyMsg k) (list_ m) in (set_list l m, componentCmd cmd)
  | statsView =>
      let '(v, cmd) := viewport_Update (KeyMsg k) (viewport m) in
      (set_viewport v m, componentCmd cmd)
  end.

(** The guard shared by the clone, copy and open cases: the list view
    is current, there are repositories, and the selected item is a
    repository item. *)
Definition selectedRepo (m : Model) : option PublicRepo :=
  match currentView m with
  | repoListView =>
      if 0 <? Z.of_nat (length (publicRepos m)) then
        match list_SelectedItem (list_ m) with
        | Some (repoItem repo) => Some repo
        | _ => None
        end
      else None
  | _ => None
  end.

Definition isListView (v : viewMode) : bool :=
  match v with repoListView => true | _ => false end.

(** The key branch outside search mode. *)
Definition handleKey (m : Model) (k : Key) : Model * Cmd :=
  if key_Matches k keys_Quit then (m, tea_Quit)
  else if key_Matches k keys_Help then
    (set_help (help_set_ShowAll (negb (help_ShowAll (help m))) (help m)) m, nilCmd)
  else if key_Matches k keys_Tab then (nextView m, nilCmd)
  else if key_Matches k keys_Search then
    if isListView (currentView m) then
      let m := set_searchMode true m in
      let m := set_search (textinput_Focus (search m)) m in
      (m, textinput_Blink)
    else updateCurrentComponent m k
  else if key_Matches k keys_Refresh then
    let m := set_loading true m in
    let m := set_reposLoaded false m in
    let m := set_eventsLoaded false m in
    let m := set_notification "🔄 Refreshing data..." m in
    let m := set_notifSuccess true m in
    (m, loadData m)
  else if key_Matches k keys_Clone then
    match selectedRepo m with
    | Some repo => (m, cloneRepoCmd repo)
    | None => updateCurrentComponent m k
    end
  else if key_Matches k keys_Copy then
    match selectedRepo m with
    | Some repo => (m, copyURLCmd repo)
    | None => updateCurrentComponent m k
    end
  else if key_Matches k keys_Open then
    match selectedRepo m with
    | Some repo => (m, openInBrowserCmd repo)
    | None => updateCurrentComponent m k
    end
  else updateCurrentComponent m k.

Definition Update (m : Model) (msg : Msg) : Model * Cmd :=
  match msg with
  | WindowSizeMsg Width Height =>
      let m := set_width Width m in
      let m := set_height Height m in
      let m := set_help (help_set_Width Width (help m)) m in
      let listHeight := GoInt.sub Height 10 in
      let m := set_list (list_SetSize (GoInt.sub Width 4) listHeight (list_ m)) m in
      let m := updateTableSize m in
      let m := set_viewport (viewport_set_Width (GoInt.sub Width 4) (viewport m)) m in
      let m := set_viewport (viewport_set_Height listHeight (viewport m)) m in
      (m, nilCmd)
  | reposLoadedMsg repos err =>
      let m := set_reposLoaded true m in
      let m :=
        match err with
        | Some e =>
            let m := set_notification ("❌ Error loading repositories: " +:+ e) m in
            set_notifSuccess false m
        | None =>
            let m := set_publicRepos repos m in
            let m := updateRepoList m in
            updateRepoTable m
        end in
      (checkLoadingComplete m, nilCmd)
  | eventsLoadedMsg events stats err =>
      let m := set_eventsLoaded true m in
      let m :=
        match err with
        | Some e =>
            let m := set_notification ("❌ Error loading activity: " +:+ e) m in
            set_notifSuccess false m
        | None =>
            let m := set_events events m in
            let m := set_stats stats m in
            updateActivityList m
        end in
      (checkLoadingComplete m, nilCmd)
  | NotificationMsg message isSuccess =>
      let m := set_notification message m in
      let m := set_notifSuccess isSuccess m in
      (m, tea_Tick (3 * time_Second) ClearNotificationMsg)
  | ClearNotificationMsg =>
      (set_notification "" m, nilCmd)
  | spinner_TickMsg _ =>
      let '(s, cmd) := spinner_Update msg (spinner m) in
      (set_spinner s m, componentCmd cmd)
  | KeyMsg k =>
      if searchMode m then handleSearchInput m k else handleKey m k
  | foreignMsg _ =>
      if loading m then
        let '(s, cmd) := spinner_Update msg (spinner m) in
        (set_spinner s m, tea_Batch [componentCmd cmd])
      else (m, tea_Batch [])
  end.

Definition NewModel (username : string) : Model :=
  let l := list_New [] 0 0 in
  let l := list_SetShowStatusBar false l in
  let l := list_SetFilteringEnabled false l in
  let l := list_set_Title "Loading..." l in
  let t := table_New in
  let v := viewport_New 0 0 in
  let h := help_New in
  let s := spinner_New in
  let s := spinner_set_Spinner "Dot" s in
  let s := spinner_set_Style "205" s in
  let ti := textinput_New in
  let ti := textinput_set_Placeholder "Type to search repositories..." ti in
  let ti := textinput_set_CharLimit 50 ti in
  {| username := username; events := []; repos := []; publicRepos := [];
     stats := zeroStats; list_ := l; table := t; viewport := v; help := h;
     spinner := s; progress := progress_zero; search := ti;
     paginator := paginator_zero; currentView := repoListView;
     loading := true; showHelp := false; searchMode := false;
     notification := ""; notifSuccess := false; width := 0; height := 0;
     ready := false; reposLoaded := false; eventsLoaded := false |}.

(** The successor function of the view ring. *)
Definition succView (v : viewMode) : viewMode :=
  match v with
  | repoListView => repoTableView
  | repoTableView => statsView
  | statsView => activityView
  | activityView => repoListView
  end.

(** ** The event loop and its timers

    A [World] is the model together with the clock and the timers that
    are armed and have not fired.  Delivering a message runs [Update]
    and arms the timers of the command it hands back; a timer that
    fires delivers its message. *)
Record World := { w_model : Model; w_now : Z; w_timers : list Pending }.

Definition startWorld (m : Model) : World :=
  {| w_model := m; w_now := 0; w_timers := [] |}.

Definition deliver (msg : Msg) (w : World) : World :=
  let '(m, cmd) := Update (w_model w) msg in
  {| w_model := m; w_now := w_now w;
     w_timers := w_timers w ++ ticksOf (w_now w) cmd |}.

(** Time passes without any message. *)
Definition elapse (d : Z) (w : World) : World :=
  {| w_model := w_model w; w_now := w_now w + d; w_timers := w_timers w |}.

(** The [k]-th armed timer fires: the clock is at its due instant (or
    later) and its message is delivered.  [None] if there is no such
    timer. *)
Definition fire (k : nat) (w : World) : option World :=
  p ← w_timers w !! k;
  Some (deliver (payload p)
          {| w_model := w_model w; w_now := Z.max (w_now w) (due p);
             w_timers := delete k (w_timers w) |}).

(** The fields of a model other than the list component and the
    notification text. *)
Definition sameButListAndNotification (a b : Model) : Prop :=
  set_list (list_ b) (set_notification (notification b) a) = b.

(** Two models agree on the ready flag, the view and the notification
    text. *)
Definition sameCore (a b : Model) : Prop :=
  ready a = ready b /\ currentView a = currentView b /\
  notification a = notification b.

(** The model after a sequence of messages, the commands dropped. *)
Definition run (m : Model) (msgs : list Msg) : Model :=
  fold_left (fun m msg => fst (Update m msg)) msgs m.

(** The messages that write the notification text. *)
Definition isNotification (msg : Msg) : bool :=
  match msg with NotificationMsg _ _ => true | _ => false end.

Definition isRefreshKey (m : Model) (msg : Msg) : bool :=
  match msg with
  | KeyMsg k => negb (searchMode m) && key_Matches k keys_Refresh
  | _ => false
  end.

Definition isLoadError (msg : Msg) : bool :=
  match msg with
  | reposLoadedMsg _ (Some _) | eventsLoadedMsg _ _ (Some _) => true
  | _ => false
  end.

(** The model after both loads have been delivered with success. *)
Definition loadedModel (username : string) : Model :=
  let m := NewModel username in
  let m := fst (Update m (reposLoadedMsg [] None)) in
  fst (Update m (eventsLoadedMsg [] zeroStats None)).

End Dashboard.

(** A small implementation of the component interface: components that
    store what they are given and leave key presses alone. *)
Record plainList := {
  pl_items : list Item; pl_title : string; pl_size : Z * Z;
  pl_statusBar : bool; pl_filtering : bool
}.

Record plainTable := {
  pt_columns : list Column; pt_rows : list Row; pt_focused : bool;
  pt_height : Z; pt_styled : bool
}.

Record plainViewport := { pv_width : Z; pv_height : Z; pv_content : string }.

Record plainInput := {
  pi_value : string; pi_focused : bool; pi_placeholder : string; pi_limit : Z
}.

Definition plainBubbles : Bubbles := {|
  list_Model := plainList;
  list_New := fun items w h =>
    {| pl_items := items; pl_title := "List"; pl_size := (w, h);
       pl_statusBar := true; pl_filtering := true |};
  list_SetShowStatusBar := fun b l =>
    {| pl_items := pl_items l; pl_title := pl_title l; pl_size := pl_size l;
       pl_statusBar := b; pl_filtering := pl_filtering l |};
  list_SetFilteringEnabled := fun b l =>
    {| pl_items := pl_items l; pl_title := pl_title l; pl_size := pl_size l;
       pl_statusBar := pl_statusBar l; pl_filtering := b |};
  list_set_Title := fun s l =>
    {| pl_items := pl_items l; pl_title := s; pl_size := pl_size l;
       pl_statusBar := pl_statusBar l; pl_filtering := pl_filtering l |};
  list_SetItems := fun items l =>
    {| pl_items := items; pl_title := pl_title l; pl_size := pl_size l;
       pl_statusBar := pl_statusBar l; pl_filtering := pl_filtering l |};
  list_SetSize := fun w h l =>
    {| pl_items := pl_items l; pl_title := pl_title l; pl_size := (w, h);
       pl_statusBar := pl_statusBar l; pl_filtering := pl_filtering l |};
  list_SelectedItem := fun l => head (pl_items l);
  list_Update := fun _ l => (l, 0);

  table_Model := plainTable;
  table_New :=
    {| pt_columns := []; pt_rows := []; pt_focused := false; pt_height := 0;
       pt_styled := false |};
  table_New_with := fun columns rows focused h =>
    {| pt_columns := columns; pt_rows := rows; pt_focused := focused;
       pt_height := h; pt_styled := false |};
  table_Columns := pt_columns;
  table_Rows := pt_rows;
  table_SetStyles := fun t =>
    {| pt_columns := pt_columns t; pt_rows := pt_rows t;
       pt_focused := pt_focused t; pt_height := pt_height t; pt_styled := true |};
  table_Update := fun _ t => (t, 0);

  viewport_Model := plainViewport;
  viewport_New := fun w h => {| pv_width := w; pv_height := h; pv_content := "" |};
  viewport_set_Width := fun w v =>
    {| pv_width := w; pv_height := pv_height v; pv_content := pv_content v |};
  viewport_set_Height := fun h v =>
    {| pv_width := pv_width v; pv_height := h; pv_content := pv_content v |};
  viewport_SetContent := fun s v =>
    {| pv_width := pv_width v; pv_height := pv_height v; pv_content := s |};
  viewport_Update := fun _ v => (v, 0);

  help_Model := Z * bool;
  help_New := (0, false);
  help_set_Width := fun w h => (w, snd h);
  help_ShowAll := snd;
  help_set_ShowAll := fun b h => (fst h, b);

  spinner_Model := string * string * Z;
  spinner_New := ("Line", "", 0);
  spinner_set_Spinner := fun s sp => (s, snd (fst sp), snd sp);
  spinner_set_Style := fun s sp => (fst (fst sp), s, snd sp);
  spinner_Update := fun _ sp => ((fst sp, snd sp + 1), 1);

  textinput_Model := plainInput;
  textinput_New :=
    {| pi_value := ""; pi_focused := false; pi_placeholder := ""; pi_limit := 0 |};
  textinput_set_Placeholder := fun s t =>
    {| pi_value := pi_value t; pi_focused := pi_focused t; pi_placeholder := s;
       pi_limit := pi_limit t |};
  textinput_set_CharLimit := fun n t =>
    {| pi_value := pi_value t; pi_focused := pi_focused t;
       pi_placeholder := pi_placeholder t; pi_limit := n |};
  textinput_Focus := fun t =>
    {| pi_value := pi_value t; pi_focused := true;
       pi_placeholder := pi_placeholder t; pi_limit := pi_limit t |};
  textinput_Blur := fun t =>
    {| pi_value := pi_value t; pi_focused := false;
       pi_placeholder := pi_placeholder t; pi_limit := pi_limit t |};
  textinput_SetValue := fun s t =>
    {| pi_value := s; pi_focused := pi_focused t;
       pi_placeholder := pi_placeholder t; pi_limit := pi_limit t |};
  textinput_Value := pi_value;
  textinput_Update := fun msg t =>
    match msg with
    | KeyMsg k =>
        ({| pi_value := pi_value t +:+ Runes k; pi_focused := pi_focused t;
            pi_placeholder := pi_placeholder t; pi_limit := pi_limit t |}, 0)
    | _ => (t, 0)
    end;

  progress_Model := unit;
  progress_zero := tt;
  paginator_Model := unit;
  paginator_zero := tt;

  sprintf_1f := fun n d => pretty (n / d) +:+ "." +:+ pretty ((n * 10 / d) mod 10);
  time_Format := fun _ t => pretty t;
  strings_ToLower := fun s => s;
  renderDetailedStats := fun repos events stats =>
    "Total Repositories: " +:+ pretty (length repos) +:+
    " Total Events: " +:+ pretty (TotalEvents stats)
|}.


(** ** Event kinds: icons and short descriptions *)

(** The palette entries that [getEventIconAndColor] hands out; a
    [lipgloss.Color] is its hexadecimal text. *)
Definition nvimFgDark : string := "#a9b1d6".
Definition nvimBlue : string := "#7aa2f7".
Definition nvimCyan : string := "#7dcfff".
Definition nvimGreen : string := "#9ece6a".
Definition nvimYellow : string := "#e0af68".
Definition nvimRed : string := "#f7768e".
Definition nvimPurple : string := "#bb9af7".

Definition getEventIconAndColor (eventType : string) : string * string :=
  if String.eqb eventType "PushEvent" then ("✏", nvimGreen)
  else if String.eqb eventType "IssuesEvent" then ("☒", nvimRed)
  else if String.eqb eventType "WatchEvent" then ("☆", nvimYellow)
  else if String.eqb eventType "ForkEvent" then ("⑂", nvimPurple)
  else if String.eqb eventType "CreateEvent" then ("﹢", nvimBlue)
  else if String.eqb eventType "DeleteEvent" then ("␀", nvimRed)
  else if String.eqb eventType "PullRequestEvent" then ("♺", nvimCyan)
  else if String.eqb eventType "ReleaseEvent" then ("𝌚", nvimGreen)
  else if String.eqb eventType "PublicEvent" then ("℗", nvimBlue)
  else ("≝", nvimFgDark).

(** [strings.HasSuffix] and [strings.TrimSuffix]; a Go string is its
    bytes, and so is a string here. *)
Definition strings_HasSuffix (s suffix : string) : bool :=
  (String.length suffix <=? String.length s)%nat &&
  String.eqb
    (String.substring (String.length s - String.length suffix) (String.length suffix) s)
    suffix.

Definition strings_TrimSuffix (s suffix : string) : string :=
  if strings_HasSuffix s suffix
  then String.substring 0 (String.length s - String.length suffix) s
  else s.

Definition formatEventShort (event : GitHubEvent) : string :=
  let kind := Type_ event in
  let name := Repo_Name (Event_Repo event) in
  if String.eqb kind "PushEvent" then "Pushed to " +:+ name
  else if String.eqb kind "IssuesEvent" then "Issue in " +:+ name
  else if String.eqb kind "WatchEvent" then "Starred " +:+ name
  else if String.eqb kind "ForkEvent" then "Forked " +:+ name
  else if String.eqb kind "CreateEvent" then "Created " +:+ name
  else if String.eqb kind "PullRequestEvent" then "PR in " +:+ name
  else strings_TrimSuffix kind "Event" +:+ " in " +:+ name.

(** The nine kinds that [calculateStats] counts in a bucket of their
    own, and the counts its result is compared with. *)
Definition namedKinds : list string :=
  ["PushEvent"; "IssuesEvent"; "WatchEvent"; "ForkEvent"; "CreateEvent";
   "DeleteEvent"; "PullRequestEvent"; "ReleaseEvent"; "PublicEvent"].

Definition isNamedKind (kind : string) : bool :=
  existsb (String.eqb kind) namedKinds.

Definition countKind (kind : string) (events : list GitHubEvent) : Z :=
  Z.of_nat (length (filter (fun ev => Type_ ev = kind) events)).

Definition countOther (events : list GitHubEvent) : Z :=
  Z.of_nat (length (filter (fun ev => isNamedKind (Type_ ev) = false) events)).

(** The ten counters of a statistics record are those of an event
    list. *)
Definition countsOf (events : list GitHubEvent) (s : GitHubStats) : Prop :=
  PushEvents s = countKind "PushEvent" events /\
  IssueEvents s = countKind "IssuesEvent" events /\
  WatchEvents s = countKind "WatchEvent" events /\
  ForkEvents s = countKind "ForkEvent" events /\
  CreateEvents s = countKind "CreateEvent" events /\
  DeleteEvents s = countKind "DeleteEvent" events /\
  PullRequestEvents s = countKind "PullRequestEvent" events /\
  ReleaseEvents s = countKind "ReleaseEvent" events /\
  PublicEvents s = countKind "PublicEvent" events /\
  OtherEvents s = countOther events.

(** The position of a score among the thresholds, and the position of
    a grade among the bands. *)
Definition bandIndex (score : Q) : nat :=
  length (List.filter (fun t => Qle_bool t score) gradeThresholds).

Fixpoint indexOf (g : string) (bands : list string) : nat :=
  match bands with
  | [] => O
  | b :: bands' => if String.eqb g b then O else S (indexOf g bands')
  end.

Definition gradeRank (g : string) : nat := indexOf g gradeBands.

(** ** [getTopRepos]: reference notions *)

(** The entries of a list whose count is [c], in order. *)
Definition withCount (c : Z) (l : list RepoInfo) : list RepoInfo :=
  filter (fun r => Count r = c) l.

(** [l'] comes from [l] by some number of sweeps. *)
Inductive sweeps : list RepoInfo -> list RepoInfo -> Prop :=
| sweeps_refl l : sweeps l l
| sweeps_step l k l' : sweeps (sweep k l) l' -> sweeps l l'.

(** The events that name a repository. *)
Definition namedEvents (events : list GitHubEvent) : list GitHubEvent :=
  filter (fun ev => Repo_Name (Event_Repo ev) <> "") events.

(** ** [fetchGitHubActivity]

    One request; the reply is what the HTTP exchange hands back. *)
Inductive ActivityBody :=
| ActivityUnreadable (err : string)
| ActivityMalformed (err : string)
| ActivityDecoded (events : list GitHubEvent).

Inductive ActivityReply :=
| ActivityRequestFailed (err : string)
| ActivityTransportFailed (err : string)
| ActivityReplied (status : Z) (body : ActivityBody).

(** The result is the event list or the text of the error.  In the
    branch of a status other than 200 and 404 the format verb [%d] is
    given the variable [err], which is [nil] there, and [fmt] renders
    a [nil] operand of [%d] as [%!d(<nil>)]. *)
Definition fetchGitHubActivity (reply : ActivityReply) (username : string)
  : list GitHubEvent + string :=
  match reply with
  | ActivityRequestFailed err => inr ("error creating the request: " +:+ err)
  | ActivityTransportFailed err => inr ("request http error: " +:+ err)
  | ActivityReplied status body =>
      if status =? 404 then inr ("user '" +:+ username +:+ "' not found")
      else if negb (status =? 200) then inr "http error %!d(<nil>)"
      else
        match body with
        | ActivityUnreadable err => inr ("erreur lecture réponse: " +:+ err)
        | ActivityMalformed err => inr ("erreur parsing JSON: " +:+ err)
        | ActivityDecoded events => inl events
        end
  end.

(** The messages the two load commands deliver. *)
Definition loadEventsCmd_msg (reply : ActivityReply) (username : string) : Msg :=
  eventsLoaded_of (fetchGitHubActivity reply username).

Definition loadReposCmd_msg (server : Z -> PageReply) (username : string)
    (fuel : nat) : option Msg :=
  reposLoaded_of <$> fetchPublicRepos server username fuel.

(** A message is one the run time can deliver: a successful load
    message carries what the load command put in it. *)
Definition deliverable (msg : Msg) : Prop :=
  match msg with
  | reposLoadedMsg repos None =>
      exists server username fuel,
        fetchPublicRepos server username fuel = Some (Fetched repos)
  | eventsLoadedMsg events stats None => stats = calculateStats events
  | _ => True
  end.

(** The status an error reply of [fetchPublicRepos] would carry. *)
Definition failedPage (r : PageReply) : bool :=
  match r with
  | Replied status (Decoded _) => negb (status =? 200)
  | _ => true
  end.

(** ** [calculatePublicReposStats]

    The function prints; the record holds the values it prints, as the
    loop leaves them.  [None] is the early return on an empty slice. *)
Record ReposSummary := {
  totalStars : Z;
  totalForks : Z;
  languageCount : gmap string Z;
  mostStarredRepo : PublicRepo;
  mostForkedRepo : PublicRepo
}.

Definition summarizeRepo (s : ReposSummary) (repo : PublicRepo) : ReposSummary :=
  {| totalStars := GoInt.add (totalStars s) (Stars repo);
     totalForks := GoInt.add (totalForks s) (Forks repo);
     languageCount :=
       if String.eqb (Language repo) "" then languageCount s
       else <[Language repo :=
                GoInt.incr (default 0 (languageCount s !! Language repo))]>
              (languageCount s);
     mostStarredRepo :=
       if Stars (mostStarredRepo s) <? Stars repo then repo
       else mostStarredRepo s;
     mostForkedRepo :=
       if Forks (mostForkedRepo s) <? Forks repo then repo
       else mostForkedRepo s |}.

Definition calculatePublicReposStats (repos : list PublicRepo)
  : option ReposSummary :=
  match repos with
  | [] => None
  | first :: _ =>
      Some (fold_left summarizeRepo repos
              {| totalStars := 0; totalForks := 0; languageCount := ∅;
                 mostStarredRepo := first; mostForkedRepo := first |})
  end.

(** [r] is the first entry of [repos] with the greatest value of
    [key]. *)
Definition firstGreatest (key : PublicRepo -> Z) (r : PublicRepo)
    (repos : list PublicRepo) : Prop :=
  exists before after,
    repos = before ++ r :: after /\
    Forall (fun x => key x < key r) before /\
    Forall (fun x => key x <= key r) after.

Definition sumZ (zs : list Z) : Z := foldr Z.add 0 zs.

(** ** List items and the loading screen *)

Section Items.
Context {B : Bubbles}.

(** The three methods of [repoItem].  [len] and slicing work on
    bytes. *)
Definition repoItem_FilterValue (repo : PublicRepo) : string := PR_Name repo.

Definition repoItem_Title (repo : PublicRepo) : string :=
  PR_Name repo +:+ " ⭐ " +:+ formatNumber (Stars repo).

(** The description after the defaulting and the cut, before the
    fork count is put in front. *)
Definition shownDescription (repo : PublicRepo) : string :=
  let desc := PR_Description repo in
  let desc := if String.eqb desc "" then "No description" else desc in
  if (80 <? String.length desc)%nat then String.substring 0 77 desc +:+ "..."
  else desc.

Definition repoItem_Description (repo : PublicRepo) : string :=
  "🍴 " +:+ formatNumber (Forks repo) +:+ " • " +:+ shownDescription repo.

(** The methods of [activityItem]. *)
Definition activityItem_FilterValue (event : GitHubEvent) : string :=
  Repo_Name (Event_Repo event).
Definition activityItem_Title (event : GitHubEvent) : string :=
  formatEventShort event.
Definition activityItem_Description (event : GitHubEvent) : string :=
  time_Format "2006-01-02 15:04" (CreatedAt event).

(** The first test of [View]: the loading screen is drawn. *)
Definition showsLoadingView (m : Model) : bool := negb (ready m) && loading m.

(** What holds of the load flags in every state the program reaches. *)
Definition loadFlagsOk (m : Model) : Prop :=
  (loading m = false -> ready m = true) /\
  (reposLoaded m = true -> eventsLoaded m = true ->
   loading m = false /\ ready m = true).

(** What holds of the data in every state the program reaches. *)
Definition dataOk (m : Model) : Prop :=
  stats m = calculateStats (events m) /\
  Forall (fun repo => Private repo = false) (publicRepos m).

(** Search mode belongs to the list view. *)
Definition searchOk (m : Model) : Prop :=
  searchMode m = true -> currentView m = repoListView.

End Items.

(** ** [main]: the dispatch on the command line

    The outcome of [main] for the argument vector [args] (the program
    name first).  [TrimSpace] is [strings.TrimSpace]; [rateLimit] is
    the result of [checkRateLimit] ([None]: no error).  [UsageError]
    is [showUsage] followed by exit status 1, [ExitError] a line on
    the standard error followed by exit status 1. *)
Inductive Outcome :=
| UsageError
| ExitError (stderr : list string)
| PrintHelp
| PrintVersion
| ShowPublicRepos (username : string)
| Dashboard (username : string) (warning : option string).

Section Main.

Variable TrimSpace : string -> string.

Definition main (args : list string) (rateLimit : option string) : Outcome :=
  match args with
  | [] | [_] => UsageError
  | prog :: arg1 :: rest =>
      let repos :=
        match rest with
        | arg2 :: _ => if String.eqb arg1 "--repos" then Some arg2 else None
        | [] => None
        end in
      match repos with
      | Some arg2 =>
          let username := TrimSpace arg2 in
          if String.eqb username "" then
            ExitError ["error: username can't be empty"]
          else ShowPublicRepos username
      | None =>
          let username := TrimSpace arg1 in
          if String.eqb username "-h" || String.eqb username "--help" then
            PrintHelp
          else if String.eqb username "-v" || String.eqb username "--version"
          then PrintVersion
          else if String.eqb username "--repos" then
            ExitError ["error: --repos requires a username";
                       "usage: " +:+ prog +:+ " --repos <username>"]
          else if String.eqb username "" then
            ExitError ["error: username can't be empty"]
          else Dashboard username rateLimit
      end
  end.

(** The words that [main] takes for a flag. *)
Definition flagWords : list string :=
  ["-h"; "--help"; "-v"; "--version"; "--repos"].

End Main.

(** * Properties *)

(** ** Arithmetic of [int] *)

Lemma wrap_id z : GoInt.in_range z -> GoInt.wrap z = z.
Proof.
  unfold GoInt.in_range, GoInt.min_int, GoInt.max_int, GoInt.wrap. intros Hz.
  rewrite Z.mod_small; lia.
Qed.

Lemma incr_small z : 0 <= z < GoInt.max_int -> GoInt.incr z = z + 1.
Proof.
  unfold GoInt.incr, GoInt.add. intros Hz. apply wrap_id.
  unfold GoInt.in_range, GoInt.min_int, GoInt.max_int in *. lia.
Qed.

(** ** [calculateStats] *)

Lemma stats_inv_zero : stats_inv 0 zeroStats.
Proof. split; unfold nineBuckets, zeroStats; cbn; lia. Qed.

Lemma countEvent_inv n s e :
  0 <= n < GoInt.max_int -> stats_inv n s -> stats_inv (n + 1) (countEvent s e).
Proof.
  intros Hn [Ht Hs Hp]. unfold nineBuckets in Hs.
  unfold countEvent.
  repeat match goal with
         | |- context [if ?b then _ else _] => destruct b
         end;
    (split; unfold nineBuckets; cbn [PushEvents IssueEvents WatchEvents ForkEvents
       CreateEvents DeleteEvents PullRequestEvents ReleaseEvents PublicEvents
       OtherEvents TotalEvents];
     rewrite ?incr_small by lia; lia).
Qed.

Lemma fold_countEvent_inv events : forall n s,
  0 <= n -> n + Z.of_nat (length events) <= GoInt.max_int ->
  stats_inv n s ->
  stats_inv (n + Z.of_nat (length events)) (fold_left countEvent events s).
Proof.
  induction events as [|e events IH]; intros n s Hn Hlen Hinv.
  - cbn. now rewrite Z.add_0_r.
  - cbn [fold_left length] in *.
    replace (n + Z.of_nat (S (length events)))
      with ((n + 1) + Z.of_nat (length events)) by lia.
    apply IH; [lia | lia |].
    apply countEvent_inv; [lia | exact Hinv].
Qed.

(** C3, as amended.  For every event list (a Go slice, whose length is
    below 2^63), [calculateStats] returns a total equal to the length
    of the list, and the nine event-kind counters together with the
    counter of the other kinds add up to the total. *)
Theorem calculateStats_total_and_buckets (events : list GitHubEvent) :
  Z.of_nat (length events) <= GoInt.max_int ->
  TotalEvents (calculateStats events) = Z.of_nat (length events) /\
  nineBuckets (calculateStats events) + OtherEvents (calculateStats events)
    = TotalEvents (calculateStats events).
Proof.
  intros Hlen.
  destruct (fold_countEvent_inv events 0 zeroStats) as [Ht Hs _];
    [lia | lia | apply stats_inv_zero |].
  fold (calculateStats events) in Ht, Hs. rewrite Ht, Hs. lia.
Qed.

Lemma calculateStats_total_and_buckets_witness :
  Z.of_nat (length scenarioEvents) <= GoInt.max_int /\
  TotalEvents (calculateStats scenarioEvents) = 6 /\
  nineBuckets (calculateStats scenarioEvents)
    + OtherEvents (calculateStats scenarioEvents) = 6.
Proof.
  assert (H : Z.of_nat (length scenarioEvents) <= GoInt.max_int)
    by (vm_compute; discriminate).
  split; [exact H |].
  destruct (calculateStats_total_and_buckets scenarioEvents H) as [Ht Hs].
  split; [exact Ht | rewrite Hs; exact Ht].
Defined.

(** C3 as stated fails: an event of a kind outside the nine named ones
    is counted in the total and in no named bucket. *)
Lemma calculateStats_nine_buckets_counterexample :
  let events := [mkEvent "GollumEvent" "octocat/hello" 0] in
  ~ (TotalEvents (calculateStats events) = Z.of_nat (length events) /\
     nineBuckets (calculateStats events) = TotalEvents (calculateStats events)).
Proof. vm_compute. intros [_ H]. discriminate H. Qed.

(** ** [getGrade] *)

Lemma Qle_bool_mono (a b s : Q) :
  (b <= a)%Q -> Qle_bool a s = true -> Qle_bool b s = true.
Proof.
  intros Hba Has. apply Qle_bool_iff. apply Qle_bool_iff in Has.
  eapply Qle_trans; eassumption.
Qed.

Lemma bandOfScore_cases (score : Q) :
  bandOfScore score =
    if Qle_bool 100 score then "S+"
    else if Qle_bool 70 score then "S"
    else if Qle_bool 40 score then "A+"
    else if Qle_bool 25 score then "A"
    else if Qle_bool 15 score then "B+"
    else if Qle_bool 8 score then "B"
    else if Qle_bool 3 score then "C"
    else if Qle_bool 1 score then "D"
    else "F".
Proof.
  unfold bandOfScore, gradeThresholds, gradeBands.
  assert (Hmono : forall a b : Q, Qle_bool b a = true ->
            Qle_bool a score = true -> Qle_bool b score = true).
  { intros a b Hba. apply Qle_bool_mono. now apply Qle_bool_iff. }
  cbn [List.filter].
  destruct (Qle_bool 100 score) eqn:H100.
  { rewrite (Hmono 100%Q 70%Q eq_refl H100), (Hmono 100%Q 40%Q eq_refl H100),
      (Hmono 100%Q 25%Q eq_refl H100), (Hmono 100%Q 15%Q eq_refl H100),
      (Hmono 100%Q 8%Q eq_refl H100), (Hmono 100%Q 3%Q eq_refl H100),
      (Hmono 100%Q 1%Q eq_refl H100). reflexivity. }
  destruct (Qle_bool 70 score) eqn:H70.
  { rewrite (Hmono 70%Q 40%Q eq_refl H70), (Hmono 70%Q 25%Q eq_refl H70),
      (Hmono 70%Q 15%Q eq_refl H70), (Hmono 70%Q 8%Q eq_refl H70),
      (Hmono 70%Q 3%Q eq_refl H70), (Hmono 70%Q 1%Q eq_refl H70). reflexivity. }
  destruct (Qle_bool 40 score) eqn:H40.
  { rewrite (Hmono 40%Q 25%Q eq_refl H40), (Hmono 40%Q 15%Q eq_refl H40),
      (Hmono 40%Q 8%Q eq_refl H40), (Hmono 40%Q 3%Q eq_refl H40),
      (Hmono 40%Q 1%Q eq_refl H40). reflexivity. }
  destruct (Qle_bool 25 score) eqn:H25.
  { rewrite (Hmono 25%Q 15%Q eq_refl H25), (Hmono 25%Q 8%Q eq_refl H25),
      (Hmono 25%Q 3%Q eq_refl H25), (Hmono 25%Q 1%Q eq_refl H25). reflexivity. }
  destruct (Qle_bool 15 score) eqn:H15.
  { rewrite (Hmono 15%Q 8%Q eq_refl H15), (Hmono 15%Q 3%Q eq_refl H15),
      (Hmono 15%Q 1%Q eq_refl H15). reflexivity. }
  destruct (Qle_bool 8 score) eqn:H8.
  { rewrite (Hmono 8%Q 3%Q eq_refl H8), (Hmono 8%Q 1%Q eq_refl H8). reflexivity. }
  destruct (Qle_bool 3 score) eqn:H3.
  { rewrite (Hmono 3%Q 1%Q eq_refl H3). reflexivity. }
  destruct (Qle_bool 1 score) eqn:H1; reflexivity.
Qed.

(** The binary64 computation gives the same grade as the exact one on
    every record of [smallStats], and these reach all nine bands. *)
Lemma getGrade_float64_agrees_small :
  forallb (fun s => String.eqb (getGrade_float64 s) (getGrade s)) smallStats = true /\
  forallb (fun band => existsb (fun s => String.eqb (getGrade s) band) smallStats)
    gradeBands = true.
Proof. split; vm_compute; reflexivity. Qed.

Lemma getGrade_float64_scenario :
  getGrade_float64 (calculateStats scenarioEvents) = "C".
Proof. vm_compute. reflexivity. Qed.


(** ** [getTopRepos]: the exchange sort *)

Section ExchangeSort.

Implicit Types (l pre front back : list RepoInfo) (a b m : RepoInfo).

Lemma swapIfLess_at pre a b l :
  swapIfLess (length pre) (pre ++ a :: b :: l) =
    Some (pre ++ (if Count a <? Count b then b :: a :: l else a :: b :: l)).
Proof.
  assert (Ha : (pre ++ a :: b :: l) !! length pre = Some a)
    by (now apply list_lookup_middle).
  assert (Hb : (pre ++ a :: b :: l) !! S (length pre) = Some b).
  { replace (pre ++ a :: b :: l) with ((pre ++ [a]) ++ b :: l)
      by (now rewrite <- app_assoc).
    apply list_lookup_middle. rewrite length_app. cbn. lia. }
  unfold swapIfLess. rewrite Ha. cbn [mbind option_bind].
  rewrite Hb. cbn [mbind option_bind]. f_equal.
  destruct (Count a <? Count b); [| reflexivity].
  rewrite (insert_app_r_alt pre _ (length pre)) by lia.
  rewrite Nat.sub_diag. cbn [insert list_insert].
  rewrite (insert_app_r_alt pre _ (S (length pre))) by lia.
  replace (S (length pre) - length pre)%nat with 1%nat by lia.
  reflexivity.
Qed.

Lemma innerLoop_sweep n : forall pre l,
  (n < length l)%nat ->
  innerLoop n (length pre) (pre ++ l) = Some (pre ++ sweep n l).
Proof.
  induction n as [|n IH]; intros pre l Hn.
  - reflexivity.
  - destruct l as [|a [|b l]]; cbn [length] in Hn; try lia.
    cbn [innerLoop]. rewrite swapIfLess_at. cbn [mbind option_bind sweep].
    destruct (Count a <? Count b).
    + replace (pre ++ b :: a :: l) with ((pre ++ [b]) ++ a :: l)
        by (now rewrite <- app_assoc).
      replace (S (length pre)) with (length (pre ++ [b]))
        by (rewrite length_app; cbn; lia).
      rewrite IH by (cbn; lia). now rewrite <- app_assoc.
    + replace (pre ++ a :: b :: l) with ((pre ++ [a]) ++ b :: l)
        by (now rewrite <- app_assoc).
      replace (S (length pre)) with (length (pre ++ [a]))
        by (rewrite length_app; cbn; lia).
      rewrite IH by (cbn; lia). now rewrite <- app_assoc.
Qed.

Lemma sweep_perm n : forall l, sweep n l ≡ₚ l.
Proof.
  induction n as [|n IH]; intros l; [reflexivity |].
  destruct l as [|a [|b l]]; cbn [sweep]; try reflexivity.
  destruct (Count a <? Count b).
  - rewrite IH. apply perm_swap.
  - now rewrite IH.
Qed.

Lemma sweep_app n : forall front back,
  (n < length front)%nat -> sweep n (front ++ back) = sweep n front ++ back.
Proof.
  induction n as [|n IH]; intros front back Hn; [reflexivity |].
  destruct front as [|a [|b front]]; cbn [length] in Hn; try lia.
  cbn [app sweep].
  destruct (Count a <? Count b); cbn [app]; f_equal.
  - apply (IH (a :: front)). cbn. lia.
  - apply (IH (b :: front)). cbn. lia.
Qed.

(** A full sweep carries a least element to the end. *)
Lemma sweep_last_least l : forall a,
  exists front m,
    sweep (length l) (a :: l) = front ++ [m] /\
    Count m <= Count a /\
    Forall (fun x => Count m <= Count x) front.
Proof.
  induction l as [|b l IH]; intros a.
  - exists [], a. cbn. split; [reflexivity | split; [lia | constructor]].
  - cbn [length sweep]. destruct (Count a <? Count b) eqn:Hab.
    + apply Z.ltb_lt in Hab.
      destruct (IH a) as (front & m & Hs & Hm & Hf).
      exists (b :: front), m. rewrite Hs. split; [reflexivity |].
      split; [exact Hm |]. constructor; [lia | exact Hf].
    + apply Z.ltb_ge in Hab.
      destruct (IH b) as (front & m & Hs & Hm & Hf).
      exists (a :: front), m. rewrite Hs. split; [reflexivity |].
      split; [lia |]. constructor; [lia | exact Hf].
Qed.

Lemma outerLoop_settles n : forall i l,
  (i + n = length l - 1)%nat -> settled i l ->
  exists l', outerLoop n i l = Some l' /\ l' ≡ₚ l /\ settled (i + n) l'.
Proof.
  induction n as [|n IH]; intros i l Hlen Hset.
  - exists l. rewrite Nat.add_0_r. now split.
  - destruct Hset as (front & back & -> & Hback & Hsorted & Hfront).
    rewrite length_app in Hlen.
    destruct front as [|a front]; [cbn in Hlen; lia |].
    cbn [outerLoop].
    replace (length ((a :: front) ++ back) - i - 1)%nat with (length front)
      by (rewrite length_app; cbn; lia).
    pose proof (innerLoop_sweep (length front) [] ((a :: front) ++ back)) as Hin.
    cbn [length app] in Hin. cbn [app]. rewrite Hin
      by (rewrite length_app; lia).
    cbn [mbind option_bind].
    pose proof (sweep_app (length front) (a :: front) back) as Happ.
    cbn [app] in Happ. rewrite Happ by (cbn; lia).
    destruct (sweep_last_least front a) as (f & m & Hs & Hm & Hf).
    assert (Hperm : f ++ [m] ≡ₚ a :: front)
      by (rewrite <- Hs; apply sweep_perm).
    rewrite Hs.
    assert (Hm_in : m ∈ a :: front)
      by (rewrite <- Hperm; apply elem_of_app; right; now left).
    assert (Hset' : settled (S i) ((f ++ [m]) ++ back)).
    { exists f, (m :: back). split; [now rewrite <- app_assoc |].
      split; [cbn; lia |]. split.
      - constructor; [exact Hsorted |].
        rewrite Forall_forall in Hfront. now apply (Hfront m).
      - rewrite Forall_forall. intros x Hx.
        constructor.
        + rewrite Forall_forall in Hf. now apply Hf.
        + rewrite Forall_forall in Hfront. apply (Hfront x).
          rewrite <- Hperm. apply elem_of_app. now left. }
    destruct (IH (S i) ((f ++ [m]) ++ back)) as (l' & Hrun & Hp & Hs').
    { rewrite !length_app. apply Permutation_length in Hperm.
      rewrite length_app in Hperm. cbn in *. lia. }
    { exact Hset'. }
    exists l'. split; [exact Hrun |]. split.
    + rewrite Hp. cbn [app] in *. now rewrite Hperm.
    + now replace (i + S n)%nat with (S i + n)%nat by lia.
Qed.

Lemma bubbleSort_sorts l :
  exists l', bubbleSort l = Some l' /\ l' ≡ₚ l /\ StronglySorted byCountDesc l'.
Proof.
  destruct (outerLoop_settles (length l - 1) 0 l) as (l' & Hrun & Hp & Hset).
  { lia. }
  { exists l, []. rewrite app_nil_r. repeat split; constructor || auto.
    apply Forall_forall. intros; constructor. }
  exists l'. split; [exact Hrun |]. split; [exact Hp |].
  destruct Hset as (front & back & -> & Hback & Hsorted & Hfront).
  apply Permutation_length in Hp. rewrite length_app in Hp.
  apply StronglySorted_app. split; [| split].
  - intros x y Hx Hy. rewrite Forall_forall in Hfront.
    specialize (Hfront x Hx).
    rewrite Forall_forall in Hfront. now apply Hfront.
  - destruct front as [|x [|y front]]; cbn in Hp; try lia;
      repeat constructor.
  - exact Hsorted.
Qed.

End ExchangeSort.

(** ** [getTopRepos]: the counting loop *)

Lemma tallyEvents_snoc events ev :
  tallyEvents (events ++ [ev]) = tallyEvent (tallyEvents events) ev.
Proof. unfold tallyEvents. now rewrite fold_left_app. Qed.

Lemma eventsOfRepo_snoc name events ev :
  eventsOfRepo name (events ++ [ev]) =
    eventsOfRepo name events ++
    (if decide (Repo_Name (Event_Repo ev) = name) then [ev] else []).
Proof.
  unfold eventsOfRepo. rewrite filter_app. f_equal.
Qed.

Lemma eventsOfRepo_length name events :
  (length (eventsOfRepo name events) <= length events)%nat.
Proof. apply length_filter. Qed.

(** What [repoCount] holds after the loop: the number of events of each
    non-empty repository name that occurs, and no other key. *)
Lemma tally_count events :
  Z.of_nat (length events) <= GoInt.max_int ->
  forall name,
    repoCount (tallyEvents events) !! name =
      if decide (name = "" \/ eventsOfRepo name events = []) then None
      else Some (Z.of_nat (length (eventsOfRepo name events))).
Proof.
  induction events as [|ev events IH] using rev_ind; intros Hlen name.
  - cbn. rewrite lookup_empty. case_decide; [reflexivity | tauto].
  - rewrite length_app in Hlen. cbn [length] in Hlen.
    assert (IH' := IH ltac:(lia)). clear IH.
    rewrite tallyEvents_snoc, eventsOfRepo_snoc. unfold tallyEvent.
    destruct (String.eqb (Repo_Name (Event_Repo ev)) "") eqn:Hempty.
    + apply String.eqb_eq in Hempty. rewrite IH'.
      destruct (decide (Repo_Name (Event_Repo ev) = name)) as [Heq|Hne].
      * rewrite Hempty in Heq. subst name.
        repeat case_decide; try reflexivity; tauto.
      * now rewrite app_nil_r.
    + apply String.eqb_neq in Hempty. cbn [repoCount].
      destruct (decide (Repo_Name (Event_Repo ev) = name)) as [Heq|Hne].
      * subst name. rewrite lookup_insert_eq, IH'.
        pose proof (eventsOfRepo_length (Repo_Name (Event_Repo ev)) events).
        case_decide as Hold; case_decide as Hnew.
        -- destruct Hnew as [Hnew|Hnew]; [contradiction |].
           now apply app_eq_nil in Hnew as [_ ?].
        -- destruct Hold as [Hold|Hold]; [contradiction |].
           rewrite Hold. reflexivity.
        -- destruct Hnew as [Hnew|Hnew]; [contradiction |].
           now apply app_eq_nil in Hnew as [_ ?].
        -- change (default 0 (Some ?x)) with x. rewrite incr_small by lia.
           rewrite length_app. cbn [length]. f_equal. lia.
      * rewrite lookup_insert_ne by exact Hne. rewrite IH'.
        now rewrite app_nil_r.
Qed.

Lemma latestOf_cons u ts : latestOf (u :: ts) = Z.max u (latestOf ts).
Proof. reflexivity. Qed.

Lemma latestOf_snoc ts t : latestOf (ts ++ [t]) = Z.max (latestOf ts) t.
Proof.
  induction ts as [|u ts IH].
  - change (Z.max t 0 = Z.max 0 t). lia.
  - change (latestOf (u :: ts ++ [t]) = Z.max (latestOf (u :: ts)) t).
    rewrite !latestOf_cons, IH. lia.
Qed.

Lemma latestOf_upper ts : Forall (fun u => u <= latestOf ts) ts.
Proof.
  induction ts as [|u ts IH]; constructor; rewrite latestOf_cons.
  - lia.
  - eapply Forall_impl; [exact IH |]. intros v Hv. cbv beta in *. lia.
Qed.

Lemma latestOf_elem ts : latestOf ts ∈ ts \/ latestOf ts = zeroTime.
Proof.
  induction ts as [|u ts IH]; [now right |].
  rewrite latestOf_cons.
  destruct (Z.max_spec u (latestOf ts)) as [[_ ->]|[_ ->]].
  - destruct IH as [IH|IH]; [left; now right | now right].
  - left; now left.
Qed.

Lemma latestOf_isMaximum ts :
  (exists t, t ∈ ts /\ zeroTime <= t) -> isMaximumOf (latestOf ts) ts.
Proof.
  intros (t & Hin & Ht). split; [| apply latestOf_upper].
  destruct (latestOf_elem ts) as [H|H]; [exact H |].
  pose proof (latestOf_upper ts) as Hup. rewrite Forall_forall in Hup.
  specialize (Hup t Hin). cbn in Hup.
  replace (latestOf ts) with t by lia. exact Hin.
Qed.

(** What [reposLastAct] holds after the loop. *)
Lemma tally_latest events name :
  name <> "" ->
  default zeroTime (reposLastAct (tallyEvents events) !! name) =
    latestOf (timesOfRepo name events).
Proof.
  intros Hname.
  induction events as [|ev events IH] using rev_ind.
  - cbn. now rewrite lookup_empty.
  - unfold timesOfRepo in *.
    rewrite tallyEvents_snoc, eventsOfRepo_snoc, map_app.
    unfold tallyEvent.
    destruct (String.eqb (Repo_Name (Event_Repo ev)) "") eqn:Hempty.
    + apply String.eqb_eq in Hempty.
      case_decide; [congruence |]. cbn [map]. rewrite app_nil_r.
      exact IH.
    + cbn [reposLastAct].
      destruct (decide (Repo_Name (Event_Repo ev) = name)) as [Heq|Hne].
      * subst name. cbn [map]. rewrite latestOf_snoc, <- IH.
        unfold After.
        destruct (_ <? CreatedAt ev) eqn:Hafter.
        -- apply Z.ltb_lt in Hafter. rewrite lookup_insert_eq.
           change (default zeroTime (Some ?x)) with x. lia.
        -- apply Z.ltb_ge in Hafter. lia.
      * cbn [map]. rewrite app_nil_r.
        destruct (After _ _); [| exact IH].
        rewrite lookup_insert_ne by exact Hne. exact IH.
Qed.

(** The keys of [repoCount] are the non-empty names that occur. *)
Lemma tally_keys events name :
  Z.of_nat (length events) <= GoInt.max_int ->
  name ∈ dom (repoCount (tallyEvents events)) ->
  name <> "" /\ eventsOfRepo name events <> [].
Proof.
  intros Hlen Hin. apply elem_of_dom in Hin as [c Hc].
  rewrite tally_count in Hc by exact Hlen.
  case_decide as Hd; [discriminate |]. tauto.
Qed.

(** C5, as amended.  For every event list and every iteration order of
    the map, [getTopRepos] returns a sequence in which the count of
    each entry does not exceed the number of events with the entry's
    repository name, the last activity of each entry is the greatest of
    the zero instant and the creation instants of those events (hence
    their maximum as soon as one of them is not before the zero
    instant), and the counts are non-increasing. *)
Theorem getTopRepos_counts_latest_sorted
    (order : list string) (events : list GitHubEvent) :
  Z.of_nat (length events) <= GoInt.max_int ->
  iterates order (tallyEvents events) ->
  exists result,
    getTopRepos order events = Some result /\
    Forall (fun r =>
      Count r <= Z.of_nat (length (eventsOfRepo (Name r) events)) /\
      LastActivity r = latestOf (timesOfRepo (Name r) events) /\
      ((exists t, t ∈ timesOfRepo (Name r) events /\ zeroTime <= t) ->
       isMaximumOf (LastActivity r) (timesOfRepo (Name r) events))) result /\
    StronglySorted byCountDesc result.
Proof.
  intros Hlen Hiter. unfold getTopRepos.
  destruct (bubbleSort_sorts (rangeEntries order (tallyEvents events)))
    as (result & Hrun & Hperm & Hsorted).
  exists result. split; [exact Hrun |]. split; [| exact Hsorted].
  rewrite Forall_forall. intros r Hr.
  rewrite Hperm in Hr. unfold rangeEntries in Hr.
  apply list_elem_of_In, in_map_iff in Hr as (name & <- & Hname).
  apply list_elem_of_In in Hname. unfold iterates in Hiter.
  rewrite Hiter in Hname. apply elem_of_elements in Hname.
  destruct (tally_keys events name Hlen Hname) as [Hne Hsome].
  cbn [repoEntry Name Count LastActivity].
  assert (Hlast := tally_latest events name Hne).
  split; [| split].
  - rewrite tally_count by exact Hlen.
    case_decide as Hd; [tauto |]. cbn. lia.
  - exact Hlast.
  - intros Hex. rewrite Hlast. now apply latestOf_isMaximum.
Qed.

Lemma getTopRepos_counts_latest_sorted_witness :
  let order := elements (dom (repoCount (tallyEvents scenarioEvents))) in
  exists result,
    getTopRepos order scenarioEvents = Some result /\
    Forall (fun r =>
      Count r <= Z.of_nat (length (eventsOfRepo (Name r) scenarioEvents)) /\
      LastActivity r = latestOf (timesOfRepo (Name r) scenarioEvents) /\
      ((exists t, t ∈ timesOfRepo (Name r) scenarioEvents /\ zeroTime <= t) ->
       isMaximumOf (LastActivity r) (timesOfRepo (Name r) scenarioEvents))) result /\
    StronglySorted byCountDesc result.
Proof.
  intros order.
  apply (getTopRepos_counts_latest_sorted order scenarioEvents).
  - vm_compute. discriminate.
  - unfold iterates, order. reflexivity.
Defined.

(** C5 as stated fails on the last-activity clause: an event dated
    before the zero instant never replaces the zero value the map
    yields for a missing key. *)
Lemma getTopRepos_latest_counterexample :
  let events := [mkEvent "PushEvent" "octocat/hello" (-5)] in
  let order := ["octocat/hello"] in
  iterates order (tallyEvents events) /\
  exists r,
    getTopRepos order events = Some [r] /\
    LastActivity r = zeroTime /\
    timesOfRepo (Name r) events = [-5] /\
    ~ isMaximumOf (LastActivity r) (timesOfRepo (Name r) events).
Proof.
  split.
  - unfold iterates. vm_compute. reflexivity.
  - eexists. split; [vm_compute; reflexivity |].
    split; [reflexivity |]. split; [vm_compute; reflexivity |].
    intros [Hin _]. vm_compute in Hin.
    apply list_elem_of_singleton in Hin. discriminate Hin.
Qed.

(** ** [fetchPublicRepos] *)

Lemma pageNumber_S k : GoInt.incr (pageNumber k) = pageNumber (S k).
Proof. reflexivity. Qed.

Lemma fetchPages_fetched server username fuel : forall k allRepos result,
  fetchPages server username fuel (pageNumber k) allRepos = Some (Fetched result) ->
  exists n,
    (n < fuel)%nat /\
    (forall j, (j < n)%nat -> fullPage (server (pageNumber (k + j))) = true) /\
    lastPage (server (pageNumber (k + n))) = true /\
    result =
      allRepos ++
      filter (fun repo => Private repo = false)
        (flat_map (fun j => pagePayload (server (pageNumber j))) (seq k (S n))).
Proof.
  induction fuel as [|fuel IH]; intros k allRepos result Hrun; [discriminate |].
  cbn [fetchPages] in Hrun.
  destruct (server (pageNumber k)) as [err|err|status body] eqn:Hreply;
    try discriminate.
  destruct (status =? 404) eqn:H404; [discriminate |].
  destruct (status =? 200) eqn:H200; cbn [negb] in Hrun; [| discriminate].
  destruct body as [err|err|repos]; try discriminate.
  destruct (Z.of_nat (length repos) =? 0) eqn:Hempty;
    [| destruct (Z.of_nat (length repos) <? perPage) eqn:Hshort].
  - exists 0%nat. rewrite Nat.add_0_r.
    apply Z.eqb_eq in Hempty.
    destruct repos; [| cbn in Hempty; lia].
    split; [lia |]. split; [intros; lia |].
    split; [rewrite Hreply; cbn; now rewrite H200 |].
    cbn [seq flat_map]. rewrite Hreply. cbn [pagePayload]. rewrite H200.
    cbn. rewrite app_nil_r. congruence.
  - exists 0%nat. rewrite Nat.add_0_r.
    split; [lia |]. split; [intros; lia |].
    split; [rewrite Hreply; cbn [lastPage]; now rewrite H200, Hshort |].
    cbn [seq flat_map]. rewrite Hreply. cbn [pagePayload]. rewrite H200.
    rewrite app_nil_r. congruence.
  - rewrite pageNumber_S in Hrun.
    apply IH in Hrun as (n & Hn & Hfull & Hlast & ->).
    exists (S n). split; [lia |]. split; [| split].
    + intros j Hj. destruct j as [|j].
      * rewrite Nat.add_0_r, Hreply. cbn [fullPage]. now rewrite H200, Hshort.
      * replace (k + S j)%nat with (S k + j)%nat by lia. apply Hfull. lia.
    + now replace (k + S n)%nat with (S k + n)%nat by lia.
    + change (seq k (S (S n))) with (k :: seq (S k) (S n)).
      cbn [flat_map]. rewrite Hreply. cbn [pagePayload]. rewrite H200.
      rewrite filter_app, app_assoc. reflexivity.
Qed.

(** With enough fuel the loop returns, and returns the public entries
    of the pages read. *)
Lemma fetchPages_returns server username n : forall fuel k allRepos,
  (n < fuel)%nat ->
  (forall j, (j < n)%nat -> fullPage (server (pageNumber (k + j))) = true) ->
  lastPage (server (pageNumber (k + n))) = true ->
  fetchPages server username fuel (pageNumber k) allRepos =
    Some (Fetched
      (allRepos ++
       filter (fun repo => Private repo = false)
         (flat_map (fun j => pagePayload (server (pageNumber j))) (seq k (S n))))).
Proof.
  induction n as [|n IH]; intros fuel k allRepos Hfuel Hfull Hlast;
    (destruct fuel as [|fuel]; [lia |]); cbn [fetchPages].
  - rewrite Nat.add_0_r in Hlast. cbn [seq flat_map].
    destruct (server (pageNumber k)) as [err|err|status [err|err|repos]];
      try discriminate.
    cbn [lastPage pagePayload] in *.
    apply andb_true_iff in Hlast as [H200 Hshort]. rewrite H200.
    apply Z.eqb_eq in H200. subst status. cbn [Z.eqb Pos.eqb negb].
    rewrite Hshort, app_nil_r.
    destruct (Z.of_nat (length repos) =? 0) eqn:Hempty; [| reflexivity].
    apply Z.eqb_eq in Hempty. destruct repos; [| cbn in Hempty; lia].
    cbn. now rewrite app_nil_r.
  - pose proof (Hfull 0%nat ltac:(lia)) as Hfirst.
    rewrite Nat.add_0_r in Hfirst.
    change (seq k (S (S n))) with (k :: seq (S k) (S n)). cbn [flat_map].
    destruct (server (pageNumber k)) as [err|err|status [err|err|repos]];
      try discriminate.
    cbn [fullPage pagePayload] in *.
    apply andb_true_iff in Hfirst as [H200 Hlong]. rewrite H200.
    apply Z.eqb_eq in H200. subst status. cbn [Z.eqb Pos.eqb negb].
    apply negb_true_iff in Hlong. rewrite Hlong.
    destruct (Z.of_nat (length repos) =? 0) eqn:Hempty.
    { apply Z.eqb_eq in Hempty. apply Z.ltb_ge in Hlong.
      unfold perPage in Hlong. lia. }
    rewrite pageNumber_S, IH.
    + now rewrite filter_app, app_assoc.
    + lia.
    + intros j Hj. replace (S k + j)%nat with (k + S j)%nat by lia.
      apply Hfull. lia.
    + now replace (S k + n)%nat with (k + S n)%nat by lia.
Qed.

Lemma fetchPublicRepos_returns server username n fuel :
  (n < fuel)%nat -> readsPages server n ->
  fetchPublicRepos server username fuel =
    Some (Fetched (filter (fun repo => Private repo = false)
                     (rawPayload server (S n)))).
Proof.
  intros Hfuel [Hfull Hlast]. unfold fetchPublicRepos.
  change 1 with (pageNumber 0).
  rewrite (fetchPages_returns server username n) by (cbn; auto).
  reflexivity.
Qed.



(** ** The reducer [Update] *)

Section DashboardFacts.
Context {B : Bubbles}.

Implicit Types (m : Model) (msg : Msg) (k : Key).

(** Reduction of field reads on field assignments, and of nothing
    else. *)
Ltac fields :=
  cbn [fst snd andb orb negb
       username events repos publicRepos stats list_ table viewport help
       spinner progress search paginator currentView loading showHelp
       searchMode notification notifSuccess width height ready reposLoaded
       eventsLoaded
       set_events set_publicRepos set_stats set_list set_table set_viewport
       set_help set_spinner set_search set_currentView set_loading
       set_searchMode set_notification set_notifSuccess set_width set_height
       set_ready set_reposLoaded set_eventsLoaded] in *.

Ltac unfold_loads :=
  unfold Update, checkLoadingComplete, updateRepoList, updateActivityList,
    updateRepoTable, sameButListAndNotification in *.

(** C9.  A repositories message with an error leaves the repository
    set as it was, an events message with an error leaves the event
    list and the statistics as they were; in both cases the model
    changes in the notification text and flag, the matching loaded
    flag and the loading and ready flags only, and no command is
    issued. *)
Theorem load_error_keeps_data
    m (rs : list PublicRepo) (evs : list GitHubEvent) (st : GitHubStats)
    (e : string) :
  let mr := fst (Update m (reposLoadedMsg rs (Some e))) in
  let me := fst (Update m (eventsLoadedMsg evs st (Some e))) in
  publicRepos mr = publicRepos m /\
  mr = set_ready (ready mr) (set_loading (loading mr)
         (set_reposLoaded true (set_notifSuccess false
            (set_notification ("❌ Error loading repositories: " +:+ e) m)))) /\
  events me = events m /\ stats me = stats m /\
  me = set_ready (ready me) (set_loading (loading me)
         (set_eventsLoaded true (set_notifSuccess false
            (set_notification ("❌ Error loading activity: " +:+ e) m)))) /\
  snd (Update m (reposLoadedMsg rs (Some e))) = nilCmd /\
  snd (Update m (eventsLoadedMsg evs st (Some e))) = nilCmd.
Proof.
  destruct m. cbv zeta. unfold_loads. fields.
  destruct eventsLoaded0, reposLoaded0; fields; repeat split; reflexivity.
Qed.

(** C1, as amended.  From a model in which neither load has completed,
    delivering the two completion messages in either order turns
    [ready] on at the second delivery and not before, whether they
    carry a payload or an error.  The two final models agree on every
    field other than the list component and the notification text, and
    they are equal when exactly one of the two messages carries an
    error. *)
Theorem ready_after_both_loads
    m (rs : list PublicRepo) (rerr : option string)
    (evs : list GitHubEvent) (st : GitHubStats) (eerr : option string) :
  reposLoaded m = false -> eventsLoaded m = false -> ready m = false ->
  let r := reposLoadedMsg rs rerr in
  let e := eventsLoadedMsg evs st eerr in
  let m_re := fst (Update (fst (Update m r)) e) in
  let m_er := fst (Update (fst (Update m e)) r) in
  ready (fst (Update m r)) = false /\
  ready (fst (Update m e)) = false /\
  ready m_re = true /\ ready m_er = true /\
  sameButListAndNotification m_re m_er /\
  match rerr, eerr with
  | Some _, None | None, Some _ => m_re = m_er
  | _, _ => True
  end.
Proof.
  intros Hr He Hready. destruct m. fields. subst. cbv zeta.
  unfold_loads. destruct rerr, eerr; fields; repeat split; reflexivity.
Qed.

Lemma NewModel_fresh username :
  reposLoaded (NewModel username) = false /\
  eventsLoaded (NewModel username) = false /\
  ready (NewModel username) = false /\
  loading (NewModel username) = true /\
  currentView (NewModel username) = repoListView.
Proof. repeat split; reflexivity. Qed.

(** C7.  A notification message replaces the notification at once and
    hands back a tick of three seconds that carries the clear message;
    the clear message empties the notification whatever it is.  After
    [notify "x" true] and, [d] later, [notify "y" false], two timers
    are armed; when the first of them fires the notification is empty
    while the timer armed for "y" is still to come. *)
Theorem notification_replaced_then_cleared m (message : string) (isSuccess : bool) (d : Z) :
  Update m (NotificationMsg message isSuccess) =
    (set_notifSuccess isSuccess (set_notification message m),
     tea_Tick (3 * time_Second) ClearNotificationMsg) /\
  Update m ClearNotificationMsg = (set_notification "" m, nilCmd) /\
  notification (fst (Update m (NotificationMsg message isSuccess))) = message /\
  notification (fst (Update m ClearNotificationMsg)) = "" /\
  let w1 := deliver (NotificationMsg "x" true) (startWorld m) in
  let w2 := deliver (NotificationMsg "y" false) (elapse d w1) in
  notification (w_model w1) = "x" /\
  notification (w_model w2) = "y" /\
  w_timers w2 =
    [ {| due := 3 * time_Second; payload := ClearNotificationMsg |};
      {| due := d + 3 * time_Second; payload := ClearNotificationMsg |} ] /\
  exists w3,
    fire 0 w2 = Some w3 /\
    notification (w_model w3) = "" /\
    w_now w3 = Z.max d (3 * time_Second) /\
    w_timers w3 = [ {| due := d + 3 * time_Second; payload := ClearNotificationMsg |} ].
Proof.
  repeat split; try reflexivity.
  eexists. split; [reflexivity |].
  unfold deliver, elapse, startWorld, Update. cbn [w_model w_now w_timers].
  fields. repeat split; reflexivity.
Qed.

End DashboardFacts.

(** C1 as stated fails on its last clause: with two errors the
    notification is the one of the message delivered last, and with
    two payloads so is the content of the list component. *)
Lemma ready_after_both_loads_counterexample :
  let m := @NewModel plainBubbles "octocat" in
  let run (a b : Msg) := fst (Update (fst (Update m a)) b) in
  reposLoaded m = false /\ eventsLoaded m = false /\ ready m = false /\
  (let r := reposLoadedMsg [] (Some "timeout") in
   let e := eventsLoadedMsg [] zeroStats (Some "timeout") in
   run r e <> run e r) /\
  (let r := reposLoadedMsg [mkRepo "hello" 5 false] None in
   let e := eventsLoaded_of (inl scenarioEvents) in
   run r e <> run e r).
Proof.
  cbv zeta. repeat split.
  - intros H. apply (f_equal notification) in H. vm_compute in H. discriminate H.
  - intros H. apply (f_equal (fun m' : @Model plainBubbles => pl_title (@list_ plainBubbles m'))) in H.
    vm_compute in H. discriminate H.
Qed.

Lemma ready_after_both_loads_witness :
  let m := @NewModel plainBubbles "octocat" in
  let r := reposLoadedMsg [mkRepo "hello" 5 false] None in
  let e := eventsLoadedMsg [] zeroStats (Some "timeout") in
  let m_re := fst (Update (fst (Update m r)) e) in
  let m_er := fst (Update (fst (Update m e)) r) in
  ready (fst (Update m r)) = false /\
  ready (fst (Update m e)) = false /\
  ready m_re = true /\ ready m_er = true /\
  sameButListAndNotification m_re m_er /\
  m_re = m_er.
Proof.
  exact (@ready_after_both_loads plainBubbles (@NewModel plainBubbles "octocat")
           [mkRepo "hello" 5 false] None [] zeroStats (Some "timeout")
           eq_refl eq_refl eq_refl).
Defined.

Section KeysAndViews.
Context {B : Bubbles}.

Implicit Types (m : Model) (msg : Msg) (k : Key).

Ltac core := unfold sameCore; repeat split; reflexivity.

Lemma key_Matches_single k (b : Binding) (s : string) :
  binding_keys b = [s] -> key_Matches k b = true -> Key_String k = s.
Proof.
  unfold key_Matches. intros ->. cbn. rewrite orb_false_r.
  apply String.eqb_eq.
Qed.

(** The key that matches the refresh binding matches none of the
    bindings tested before it. *)
Lemma refresh_key_branch k :
  key_Matches k keys_Refresh = true ->
  key_Matches k keys_Quit = false /\ key_Matches k keys_Help = false /\
  key_Matches k keys_Tab = false /\ key_Matches k keys_Search = false.
Proof.
  intros H. apply (key_Matches_single k keys_Refresh "r" eq_refl) in H.
  unfold key_Matches. rewrite H. repeat split; reflexivity.
Qed.

Lemma nextView_core m :
  ready (nextView m) = ready m /\
  currentView (nextView m) = succView (currentView m) /\
  notification (nextView m) = notification m.
Proof. unfold nextView. destruct (currentView m) eqn:Hv; repeat split; reflexivity. Qed.

Lemma updateTableSize_core m : sameCore (updateTableSize m) m.
Proof. unfold updateTableSize. destruct (0 <? height m); core. Qed.

Lemma filterRepoList_core q m : sameCore (filterRepoList q m) m.
Proof. unfold filterRepoList. destruct (String.eqb q ""); core. Qed.

Lemma updateCurrentComponent_core m k :
  sameCore (fst (updateCurrentComponent m k)) m /\
  exists tag, snd (updateCurrentComponent m k) = componentCmd tag.
Proof.
  unfold updateCurrentComponent.
  destruct (currentView m);
    [destruct (list_Update (KeyMsg k) (list_ m)) as [c tag]
    |destruct (table_Update (KeyMsg k) (table m)) as [c tag]
    |destruct (viewport_Update (KeyMsg k) (viewport m)) as [c tag]
    |destruct (list_Update (KeyMsg k) (list_ m)) as [c tag]];
    (split; [core | now exists tag]).
Qed.

Lemma handleSearchInput_core m k (t : Z) :
  sameCore (fst (handleSearchInput m k)) m /\
  ticksOf t (snd (handleSearchInput m k)) = [].
Proof.
  unfold handleSearchInput.
  assert (Henter : sameCore
      (filterRepoList
         (textinput_Value (search (set_search (textinput_Blur
            (search (set_searchMode false m))) (set_searchMode false m))))
         (set_search (textinput_Blur (search (set_searchMode false m)))
            (set_searchMode false m))) m).
  { destruct (filterRepoList_core
                (textinput_Value (search (set_search (textinput_Blur
                   (search (set_searchMode false m))) (set_searchMode false m))))
                (set_search (textinput_Blur (search (set_searchMode false m)))
                   (set_searchMode false m))) as (H1 & H2 & H3).
    unfold sameCore. rewrite H1, H2, H3. repeat split; reflexivity. }
  destruct (Key_Type k) as [| | | | | | | | |name];
    try (destruct (textinput_Update (KeyMsg k) (search m)) as [s tag]);
    (split; [| reflexivity]); try exact Henter; core.
Qed.

(** The three ways the key branch can go, as far as the core fields
    and the timers are concerned. *)
Lemma handleKey_core m k (t : Z) :
  ticksOf t (snd (handleKey m k)) = [] /\
  ((key_Matches k keys_Tab = true /\ fst (handleKey m k) = nextView m) \/
   (key_Matches k keys_Refresh = true /\
    ready (fst (handleKey m k)) = ready m /\
    currentView (fst (handleKey m k)) = currentView m) \/
   sameCore (fst (handleKey m k)) m).
Proof.
  assert (Hcomp : ticksOf t (snd (updateCurrentComponent m k)) = [] /\
                  sameCore (fst (updateCurrentComponent m k)) m).
  { destruct (updateCurrentComponent_core m k) as [Hc [tag ->]]. now split. }
  destruct Hcomp as [Hct Hcc].
  unfold handleKey.
  destruct (key_Matches k keys_Quit); [split; [reflexivity | right; right; core] |].
  destruct (key_Matches k keys_Help); [split; [reflexivity | right; right; core] |].
  destruct (key_Matches k keys_Tab); [split; [reflexivity | left; now split] |].
  destruct (key_Matches k keys_Search).
  { destruct (isListView (currentView m));
      [split; [reflexivity | right; right; core] | split; [exact Hct | now right; right]]. }
  destruct (key_Matches k keys_Refresh).
  { split; [reflexivity | right; left; repeat split; reflexivity]. }
  destruct (key_Matches k keys_Clone).
  { destruct (selectedRepo m);
      [split; [reflexivity | right; right; core] | split; [exact Hct | now right; right]]. }
  destruct (key_Matches k keys_Copy).
  { destruct (selectedRepo m);
      [split; [reflexivity | right; right; core] | split; [exact Hct | now right; right]]. }
  destruct (key_Matches k keys_Open).
  { destruct (selectedRepo m);
      [split; [reflexivity | right; right; core] | split; [exact Hct | now right; right]]. }
  split; [exact Hct | now right; right].
Qed.

Lemma checkLoadingComplete_core m :
  (ready m = true -> ready (checkLoadingComplete m) = true) /\
  currentView (checkLoadingComplete m) = currentView m /\
  notification (checkLoadingComplete m) = notification m.
Proof.
  unfold checkLoadingComplete.
  destruct (reposLoaded m && eventsLoaded m); repeat split; auto.
Qed.

(** The messages other than key presses. *)
Lemma Update_plain_core m msg (t : Z) :
  (forall k, msg <> KeyMsg k) ->
  ticksOf t (snd (Update m msg)) =
    (if isNotification msg
     then [ {| due := t + 3 * time_Second; payload := ClearNotificationMsg |} ]
     else []) /\
  (ready m = true -> ready (fst (Update m msg)) = true) /\
  currentView (fst (Update m msg)) = currentView m /\
  (notification (fst (Update m msg)) = notification m \/
   isLoadError msg = true \/ isNotification msg = true \/
   msg = ClearNotificationMsg).
Proof.
  intros Hkey.
  destruct msg as [w h|rs err|evs st err|s b| |tag|k|tag].
  - split; [reflexivity |]. unfold Update. cbv zeta. cbn [fst].
    match goal with
    | |- context [updateTableSize ?x] =>
        destruct (updateTableSize_core x) as (H1 & H2 & H3)
    end.
    repeat split; [intros Hr | | left].
    + change (ready (updateTableSize
        (set_list (list_SetSize (GoInt.sub w 4) (GoInt.sub h 10)
           (list_ (set_help (help_set_Width w (help (set_height h (set_width w m))))
                     (set_height h (set_width w m)))))
           (set_help (help_set_Width w (help (set_height h (set_width w m))))
              (set_height h (set_width w m))))) = true).
      rewrite H1. exact Hr.
    + etransitivity; [| exact H2]. reflexivity.
    + etransitivity; [| exact H3]. reflexivity.
  - split; [reflexivity |]. unfold Update. cbv zeta. cbn [fst].
    match goal with
    | |- context [checkLoadingComplete ?x] =>
        destruct (checkLoadingComplete_core x) as (H1 & H2 & H3)
    end.
    rewrite H2, H3. split; [intros Hr; apply H1; now destruct err |].
    split; [now destruct err |].
    destruct err; [right; left; reflexivity | left; reflexivity].
  - split; [reflexivity |]. unfold Update. cbv zeta. cbn [fst].
    match goal with
    | |- context [checkLoadingComplete ?x] =>
        destruct (checkLoadingComplete_core x) as (H1 & H2 & H3)
    end.
    rewrite H2, H3. split; [intros Hr; apply H1; now destruct err |].
    split; [now destruct err |].
    destruct err; [right; left; reflexivity | left; reflexivity].
  - repeat split; auto.
  - repeat split; auto.
  - unfold Update. destruct (spinner_Update _ _) as [s c].
    repeat split; auto.
  - now destruct (Hkey k).
  - unfold Update. destruct (loading m); [destruct (spinner_Update _ _) as [s c] |];
      repeat split; auto.
Qed.

Lemma Update_key_core m k (t : Z) :
  ticksOf t (snd (Update m (KeyMsg k))) = [] /\
  ((searchMode m = false /\ key_Matches k keys_Tab = true /\
    fst (Update m (KeyMsg k)) = nextView m) \/
   (searchMode m = false /\ key_Matches k keys_Refresh = true /\
    ready (fst (Update m (KeyMsg k))) = ready m /\
    currentView (fst (Update m (KeyMsg k))) = currentView m) \/
   sameCore (fst (Update m (KeyMsg k))) m).
Proof.
  unfold Update. destruct (searchMode m).
  - destruct (handleSearchInput_core m k t) as [Hc Ht]. split; [exact Ht | now right; right].
  - destruct (handleKey_core m k t) as [Ht [H|[H|H]]];
      (split; [exact Ht |]); [left | right; left | right; right]; tauto.
Qed.

Lemma ready_stable m msg : ready m = true -> ready (fst (Update m msg)) = true.
Proof.
  intros Hr. destruct msg as [w h|rs err|evs st err|s b| |tag|k|tag];
    try (apply (Update_plain_core m _ 0); [discriminate | exact Hr]).
  destruct (Update_key_core m k 0) as [_ [(_ & _ & ->)|[(_ & _ & -> & _)|(-> & _)]]];
    try exact Hr.
  now rewrite (proj1 (nextView_core m)).
Qed.

Lemma ready_run msgs : forall m, ready m = true -> ready (run m msgs) = true.
Proof.
  induction msgs as [|msg msgs IH]; intros m H; [exact H |].
  apply IH. now apply ready_stable.
Qed.

(** C2, as amended.  Outside search mode, a refresh key delivered to a
    model whose [ready] flag is set clears [reposLoaded] and
    [eventsLoaded], sets [loading] and asks for both loads again; the
    [ready] flag stays set, after the refresh and after any further
    messages. *)
Theorem refresh_resets_loaded_keeps_ready m k :
  searchMode m = false -> key_Matches k keys_Refresh = true -> ready m = true ->
  let m' := fst (Update m (KeyMsg k)) in
  reposLoaded m' = false /\ eventsLoaded m' = false /\
  loading m' = true /\ ready m' = true /\
  snd (Update m (KeyMsg k)) = loadData m /\
  forall msgs, ready (run m' msgs) = true.
Proof.
  intros Hsearch Hkey Hready.
  destruct (refresh_key_branch k Hkey) as (Hq & Hh & Ht & Hs).
  assert (Hm' : ready (fst (Update m (KeyMsg k))) = true)
    by now apply ready_stable.
  cbv zeta. repeat split; try exact Hm';
    try (intros msgs; now apply ready_run);
    unfold Update, handleKey; rewrite Hsearch, Hq, Hh, Ht, Hs, Hkey;
    reflexivity.
Qed.

(** C8.  [nextView] moves along the ring list, table, statistics,
    activity and back to list: four applications from the list view
    visit table, statistics and activity once each and return.  The
    reducer changes the view in no other way: a message either leaves
    the view alone or is the tab key outside search mode, which runs
    [nextView]. *)
Theorem nextView_ring m :
  currentView (nextView m) = succView (currentView m) /\
  (succView repoListView = repoTableView /\ succView repoTableView = statsView /\
   succView statsView = activityView /\ succView activityView = repoListView) /\
  (currentView m = repoListView ->
   map currentView
     [nextView m; nextView (nextView m); nextView (nextView (nextView m));
      nextView (nextView (nextView (nextView m)))] =
     [repoTableView; statsView; activityView; repoListView]) /\
  (forall msg,
     currentView (fst (Update m msg)) = currentView m \/
     (searchMode m = false /\ (exists k, msg = KeyMsg k /\ Key_String k = "tab") /\
      fst (Update m msg) = nextView m)).
Proof.
  assert (Hnext : forall m', currentView (nextView m') = succView (currentView m'))
    by (intros m'; apply nextView_core).
  split; [apply Hnext |]. split; [repeat split |]. split.
  - intros Hv. cbn [map]. rewrite !Hnext, Hv. reflexivity.
  - intros msg. destruct msg as [w h|rs err|evs st err|s b| |t|k|t];
      try (left; apply (Update_plain_core m _ 0); discriminate).
    destruct (Update_key_core m k 0) as [_ [(Hs & Ht & Hm)|[(_ & _ & _ & Hv)|(_ & Hv & _)]]];
      [right | left; exact Hv | left; exact Hv].
    split; [exact Hs |]. split; [| exact Hm].
    exists k. split; [reflexivity |].
    now apply (key_Matches_single k keys_Tab "tab" eq_refl).
Qed.

(** C10.  The reducer arms a timer only when it is given a
    notification message, and then a single one, three seconds ahead,
    that carries the clear message: the error branches of the two load
    messages and the refresh key set the notification and arm nothing.
    The notification text changes only on a load error, a notification
    message, a refresh key outside search mode, or the clear message. *)
Theorem only_notification_arms_clear m msg (now : Z) :
  ticksOf now (snd (Update m msg)) =
    (if isNotification msg
     then [ {| due := now + 3 * time_Second; payload := ClearNotificationMsg |} ]
     else []) /\
  schedulesClear (snd (Update m msg)) = isNotification msg /\
  (forall w, w_timers (deliver msg w) =
     w_timers w ++
     (if isNotification msg
      then [ {| due := w_now w + 3 * time_Second; payload := ClearNotificationMsg |} ]
      else [])) /\
  (notification (fst (Update m msg)) = notification m \/
   isLoadError msg = true \/ isNotification msg = true \/
   isRefreshKey m msg = true \/ msg = ClearNotificationMsg).
Proof.
  assert (Hticks : forall m' t,
    ticksOf t (snd (Update m' msg)) =
      (if isNotification msg
       then [ {| due := t + 3 * time_Second; payload := ClearNotificationMsg |} ]
       else [])).
  { intros m' t. destruct msg as [w h|rs err|evs st err|s b| |tag|k|tag];
      try (apply (Update_plain_core m' _ t); discriminate).
    apply (Update_key_core m' k t). }
  split; [apply Hticks |]. split; [| split].
  - unfold schedulesClear. rewrite Hticks. now destruct (isNotification msg).
  - intros w. unfold deliver.
    specialize (Hticks (w_model w) (w_now w)).
    destruct (Update (w_model w) msg) as [m' cmd]. cbn in *. now rewrite Hticks.
  - destruct msg as [w h|rs err|evs st err|s b| |tag|k|tag];
      try (match goal with
           | |- context [Update m ?x] =>
               destruct (Update_plain_core m x 0 ltac:(discriminate))
                 as (_ & _ & _ & [H|[H|[H|H]]])
           end; tauto).
    destruct (Update_key_core m k 0) as [_ [(Hs & Ht & ->)|[(Hs & Hr & _)|(_ & _ & Hn)]]].
    + left. apply nextView_core.
    + right; right; right; left. unfold isRefreshKey. now rewrite Hs, Hr.
    + now left.
Qed.

End KeysAndViews.

(** ** The reducer on concrete models *)

Lemma refresh_resets_loaded_keeps_ready_witness :
  let m := @loadedModel plainBubbles "octocat" in
  let m' := fst (Update m (KeyMsg (runeKey "r"))) in
  reposLoaded m' = false /\ eventsLoaded m' = false /\
  loading m' = true /\ ready m' = true /\
  snd (Update m (KeyMsg (runeKey "r"))) = loadData m /\
  forall msgs, ready (run m' msgs) = true.
Proof.
  exact (@refresh_resets_loaded_keeps_ready plainBubbles
           (@loadedModel plainBubbles "octocat") (runeKey "r")
           eq_refl eq_refl eq_refl).
Defined.

(** C2 as stated fails: the refresh branch assigns [loading],
    [reposLoaded], [eventsLoaded] and the notification, and leaves
    [ready] set. *)
Lemma refresh_ready_counterexample :
  let m := @loadedModel plainBubbles "octocat" in
  let m' := fst (Update m (KeyMsg (runeKey "r"))) in
  ready m = true /\
  ~ (reposLoaded m' = false /\ eventsLoaded m' = false /\ ready m' = false).
Proof.
  cbv zeta. split; [reflexivity |].
  intros (_ & _ & H). vm_compute in H. discriminate H.
Qed.

Lemma nextView_ring_witness :
  let m := @NewModel plainBubbles "octocat" in
  currentView m = repoListView /\
  map currentView
    [nextView m; nextView (nextView m); nextView (nextView (nextView m));
     nextView (nextView (nextView (nextView m)))] =
    [repoTableView; statsView; activityView; repoListView].
Proof.
  split; [reflexivity |].
  exact (proj1 (proj2 (proj2
           (@nextView_ring plainBubbles (@NewModel plainBubbles "octocat"))))
         eq_refl).
Defined.

(** * Further properties *)

(** ** [calculateStats]: every counter *)

Lemma calculateStats_snoc events ev :
  calculateStats (events ++ [ev]) = countEvent (calculateStats events) ev.
Proof. unfold calculateStats. now rewrite fold_left_app. Qed.

Lemma countKind_snoc kind events ev :
  countKind kind (events ++ [ev]) =
    countKind kind events + (if String.eqb (Type_ ev) kind then 1 else 0).
Proof.
  unfold countKind. rewrite filter_app, length_app, Nat2Z.inj_add. f_equal.
  rewrite filter_cons, filter_nil.
  destruct (String.eqb_spec (Type_ ev) kind); case_decide; try contradiction;
    reflexivity.
Qed.

Lemma countOther_snoc events ev :
  countOther (events ++ [ev]) =
    countOther events + (if isNamedKind (Type_ ev) then 0 else 1).
Proof.
  unfold countOther. rewrite filter_app, length_app, Nat2Z.inj_add. f_equal.
  rewrite filter_cons, filter_nil.
  destruct (isNamedKind (Type_ ev)); case_decide; try discriminate;
    try contradiction; reflexivity.
Qed.

Lemma countKind_range kind events :
  0 <= countKind kind events <= Z.of_nat (length events).
Proof.
  unfold countKind.
  pose proof (length_filter (fun ev => Type_ ev = kind) events). lia.
Qed.

Lemma countOther_range events :
  0 <= countOther events <= Z.of_nat (length events).
Proof.
  unfold countOther.
  pose proof (length_filter (fun ev => isNamedKind (Type_ ev) = false) events).
  lia.
Qed.

Lemma countEvent_countsOf events ev s :
  Z.of_nat (length events) < GoInt.max_int ->
  countsOf events s -> countsOf (events ++ [ev]) (countEvent s ev).
Proof.
  intros Hlen (H1 & H2 & H3 & H4 & H5 & H6 & H7 & H8 & H9 & H10).
  pose proof (fun kind => countKind_range kind events) as Hrange.
  pose proof (countOther_range events) as Hother.
  pose proof (Hrange "PushEvent"). pose proof (Hrange "IssuesEvent").
  pose proof (Hrange "WatchEvent"). pose proof (Hrange "ForkEvent").
  pose proof (Hrange "CreateEvent"). pose proof (Hrange "DeleteEvent").
  pose proof (Hrange "PullRequestEvent"). pose proof (Hrange "ReleaseEvent").
  pose proof (Hrange "PublicEvent"). clear Hrange.
  unfold countsOf, countEvent. cbv zeta.
  rewrite !countKind_snoc, countOther_snoc.
  unfold isNamedKind, namedKinds. cbn [existsb].
  rewrite H1, H2, H3, H4, H5, H6, H7, H8, H9, H10.
  repeat match goal with
         | |- context [if String.eqb (Type_ ev) ?k then _ else _] =>
             destruct (String.eqb_spec (Type_ ev) k) as [Heq|?];
             [rewrite Heq in *; clear Heq |]
         end;
    cbn [orb String.eqb Ascii.eqb Bool.eqb andb PushEvents IssueEvents WatchEvents
         ForkEvents CreateEvents DeleteEvents PullRequestEvents ReleaseEvents
         PublicEvents OtherEvents];
    rewrite ?incr_small by lia; repeat split; lia.
Qed.

Lemma calculateStats_countsOf events :
  Z.of_nat (length events) <= GoInt.max_int ->
  countsOf events (calculateStats events).
Proof.
  induction events as [|ev events IH] using rev_ind; intros Hlen.
  - repeat split.
  - rewrite length_app in Hlen. cbn [length] in Hlen.
    rewrite calculateStats_snoc. apply countEvent_countsOf; [lia |].
    apply IH. lia.
Qed.

(** X1.  Every counter of [calculateStats] is the number of events of
    its kind, and the last one the number of events of no named kind. *)
Theorem calculateStats_counts_kinds (events : list GitHubEvent) :
  Z.of_nat (length events) <= GoInt.max_int ->
  let s := calculateStats events in
  PushEvents s = countKind "PushEvent" events /\
  IssueEvents s = countKind "IssuesEvent" events /\
  WatchEvents s = countKind "WatchEvent" events /\
  ForkEvents s = countKind "ForkEvent" events /\
  CreateEvents s = countKind "CreateEvent" events /\
  DeleteEvents s = countKind "DeleteEvent" events /\
  PullRequestEvents s = countKind "PullRequestEvent" events /\
  ReleaseEvents s = countKind "ReleaseEvent" events /\
  PublicEvents s = countKind "PublicEvent" events /\
  OtherEvents s = countOther events /\
  TotalEvents s = Z.of_nat (length events).
Proof.
  intros Hlen s.
  pose proof (calculateStats_countsOf events Hlen) as Hc.
  destruct (fold_countEvent_inv events 0 zeroStats) as [Ht _ _];
    [lia | lia | apply stats_inv_zero |].
  unfold countsOf in Hc. fold (calculateStats events) in Ht. subst s.
  rewrite Ht. intuition lia.
Qed.

Lemma calculateStats_counts_kinds_witness :
  let s := calculateStats scenarioEvents in
  PushEvents s = 3 /\ IssueEvents s = 2 /\ WatchEvents s = 1 /\
  OtherEvents s = 0 /\ TotalEvents s = 6.
Proof.
  assert (H : Z.of_nat (length scenarioEvents) <= GoInt.max_int)
    by (vm_compute; discriminate).
  destruct (calculateStats_counts_kinds scenarioEvents H)
    as (H1 & H2 & H3 & _ & _ & _ & _ & _ & _ & H10 & H11).
  cbv zeta. rewrite H1, H2, H3, H10, H11. repeat split.
Defined.

Lemma stats_ext (a b : GitHubStats) :
  PushEvents a = PushEvents b -> IssueEvents a = IssueEvents b ->
  WatchEvents a = WatchEvents b -> ForkEvents a = ForkEvents b ->
  CreateEvents a = CreateEvents b -> DeleteEvents a = DeleteEvents b ->
  PullRequestEvents a = PullRequestEvents b ->
  ReleaseEvents a = ReleaseEvents b -> PublicEvents a = PublicEvents b ->
  OtherEvents a = OtherEvents b -> TotalEvents a = TotalEvents b -> a = b.
Proof. destruct a, b. cbn. intros. subst. reflexivity. Qed.

Lemma countKind_perm kind (l1 l2 : list GitHubEvent) :
  l1 ≡ₚ l2 -> countKind kind l1 = countKind kind l2.
Proof. intros H. unfold countKind. now rewrite H. Qed.

Lemma countOther_perm (l1 l2 : list GitHubEvent) :
  l1 ≡ₚ l2 -> countOther l1 = countOther l2.
Proof. intros H. unfold countOther. now rewrite H. Qed.

(** X2.  The statistics do not depend on the order of the events. *)
Theorem calculateStats_order_free (events1 events2 : list GitHubEvent) :
  Z.of_nat (length events1) <= GoInt.max_int ->
  events1 ≡ₚ events2 ->
  calculateStats events1 = calculateStats events2.
Proof.
  intros Hlen Hperm.
  assert (Hlen2 : Z.of_nat (length events2) <= GoInt.max_int)
    by (now rewrite <- Hperm).
  pose proof (calculateStats_countsOf events1 Hlen) as H1.
  pose proof (calculateStats_countsOf events2 Hlen2) as H2.
  destruct (fold_countEvent_inv events1 0 zeroStats) as [Ht1 _ _];
    [lia | lia | apply stats_inv_zero |].
  destruct (fold_countEvent_inv events2 0 zeroStats) as [Ht2 _ _];
    [lia | lia | apply stats_inv_zero |].
  fold (calculateStats events1) in Ht1. fold (calculateStats events2) in Ht2.
  unfold countsOf in *.
  apply stats_ext;
    try (rewrite Ht1, Ht2, Hperm; reflexivity);
    repeat match goal with
           | H : _ /\ _ |- _ => destruct H as [? H]
           end;
    try (etransitivity; [eassumption |]; symmetry;
         etransitivity; [eassumption |];
         (apply countKind_perm || apply countOther_perm); now symmetry).
Qed.

Lemma calculateStats_order_free_witness :
  calculateStats scenarioEvents = calculateStats (rev scenarioEvents).
Proof.
  apply calculateStats_order_free.
  - vm_compute. discriminate.
  - apply Permutation_rev.
Defined.

(** ** Icons and buckets agree *)

Lemma fallback_icon_iff (kind : string) :
  fst (getEventIconAndColor kind) = "≝" <-> isNamedKind kind = false.
Proof.
  unfold getEventIconAndColor, isNamedKind, namedKinds. cbn [existsb].
  repeat match goal with
         | |- context [if String.eqb kind ?k then _ else _] =>
             destruct (String.eqb kind k)
         end; cbn [fst orb]; split; intros H; try reflexivity; discriminate H.
Qed.

(** X3.  The events drawn with the fallback icon are the events counted
    under [OtherEvents]. *)
Theorem fallback_icons_are_other_events (events : list GitHubEvent) :
  Z.of_nat (length events) <= GoInt.max_int ->
  Z.of_nat (length (filter
    (fun ev => fst (getEventIconAndColor (Type_ ev)) = "≝") events)) =
  OtherEvents (calculateStats events).
Proof.
  intros Hlen.
  destruct (calculateStats_countsOf events Hlen)
    as (_ & _ & _ & _ & _ & _ & _ & _ & _ & ->).
  unfold countOther. do 2 f_equal.
  apply list_filter_iff. intros ev. apply fallback_icon_iff.
Qed.

Lemma fallback_icons_are_other_events_witness :
  let events := mkEvent "GollumEvent" "octocat/wiki" 5 :: scenarioEvents in
  Z.of_nat (length (filter
    (fun ev => fst (getEventIconAndColor (Type_ ev)) = "≝") events)) =
  OtherEvents (calculateStats events).
Proof.
  apply fallback_icons_are_other_events. vm_compute. discriminate.
Defined.

(** ** [getGrade]: order of the bands *)

Lemma bandIndex_le_8 (score : Q) : (bandIndex score <= 8)%nat.
Proof.
  unfold bandIndex.
  etransitivity; [apply List.filter_length_le |]. reflexivity.
Qed.

Lemma filter_threshold_mono (a b : Q) (ts : list Q) :
  (a <= b)%Q ->
  (length (List.filter (fun t => Qle_bool t a) ts) <=
   length (List.filter (fun t => Qle_bool t b) ts))%nat.
Proof.
  intros Hab. induction ts as [|t ts IH]; [reflexivity |].
  cbn [List.filter].
  destruct (Qle_bool t a) eqn:Ha.
  - assert (Hb : Qle_bool t b = true).
    { apply Qle_bool_iff. apply Qle_bool_iff in Ha.
      eapply Qle_trans; eassumption. }
    rewrite Hb. cbn [length]. lia.
  - destruct (Qle_bool t b); cbn [length]; lia.
Qed.

Lemma gradeRank_band (i : nat) :
  (i <= 8)%nat -> gradeRank (nth i gradeBands "F") = i.
Proof.
  intros Hi.
  do 9 (destruct i as [|i]; [reflexivity |]). lia.
Qed.

Lemma gradeRank_getGrade (s : GitHubStats) :
  gradeRank (getGrade s) =
    if TotalEvents s =? 0 then 0%nat else bandIndex (weightedScore s).
Proof.
  unfold getGrade. destruct (TotalEvents s =? 0); [reflexivity |].
  cbv zeta. rewrite <- bandOfScore_cases.
  change (bandOfScore (weightedScore s))
    with (nth (bandIndex (weightedScore s)) gradeBands "F").
  apply gradeRank_band, bandIndex_le_8.
Qed.



Lemma countKind_app_le kind (events more : list GitHubEvent) :
  countKind kind events <= countKind kind (events ++ more).
Proof. unfold countKind. rewrite filter_app, length_app. lia. Qed.

(** X5.  Further events never lower the grade. *)
Theorem getGrade_grows_with_events (events more : list GitHubEvent) :
  Z.of_nat (length (events ++ more)) <= GoInt.max_int ->
  (gradeRank (getGrade (calculateStats events)) <=
   gradeRank (getGrade (calculateStats (events ++ more))))%nat.
Proof.
  intros Hlen.
  assert (Hlen1 : Z.of_nat (length events) <= GoInt.max_int)
    by (rewrite length_app in Hlen; lia).
  rewrite !gradeRank_getGrade.
  destruct (fold_countEvent_inv events 0 zeroStats) as [Ht1 _ _];
    [lia | lia | apply stats_inv_zero |].
  destruct (fold_countEvent_inv (events ++ more) 0 zeroStats) as [Ht2 _ _];
    [lia | lia | apply stats_inv_zero |].
  fold (calculateStats events) in Ht1.
  fold (calculateStats (events ++ more)) in Ht2.
  destruct (TotalEvents (calculateStats events) =? 0) eqn:H1; [lia |].
  destruct (TotalEvents (calculateStats (events ++ more)) =? 0) eqn:H2.
  { apply Z.eqb_eq in H2. apply Z.eqb_neq in H1.
    rewrite length_app in Ht2. lia. }
  apply filter_threshold_mono.
  destruct (calculateStats_countsOf events Hlen1)
    as (P1 & I1 & W1 & _ & C1 & _ & R1 & _).
  destruct (calculateStats_countsOf (events ++ more) Hlen)
    as (P2 & I2 & W2 & _ & C2 & _ & R2 & _).
  unfold weightedScore. rewrite P1, I1, W1, C1, R1, P2, I2, W2, C2, R2.
  pose proof (countKind_app_le "PushEvent" events more) as HP.
  pose proof (countKind_app_le "IssuesEvent" events more) as HI.
  pose proof (countKind_app_le "WatchEvent" events more) as HW.
  pose proof (countKind_app_le "CreateEvent" events more) as HC.
  pose proof (countKind_app_le "PullRequestEvent" events more) as HR.
  rewrite Zle_Qle in HP, HI, HW, HC, HR. lra.
Qed.

Lemma getGrade_grows_with_events_witness :
  (gradeRank (getGrade (calculateStats scenarioEvents)) <=
   gradeRank (getGrade (calculateStats
     (scenarioEvents ++ [mkEvent "PullRequestEvent" "octocat/hello" 40%Z]))))%nat.
Proof.
  apply getGrade_grows_with_events. vm_compute. discriminate.
Defined.

(** ** [formatEventShort] *)

Lemma substring_whole (s : string) : String.substring 0 (String.length s) s = s.
Proof.
  induction s as [|c s IH]; [reflexivity |].
  change (String c (String.substring 0 (String.length s) s) = String c s).
  now f_equal.
Qed.

Lemma substring_append_l (k s : string) :
  String.substring 0 (String.length k) (k +:+ s) = k.
Proof.
  induction k as [|c k IH].
  - now destruct s.
  - change (String c (String.substring 0 (String.length k) (k +:+ s)) = String c k).
    now f_equal.
Qed.

Lemma substring_append_r (k s : string) :
  String.substring (String.length k) (String.length s) (k +:+ s) = s.
Proof.
  induction k as [|c k IH]; cbn; [apply substring_whole | exact IH].
Qed.

Lemma length_append (k s : string) :
  String.length (k +:+ s) = (String.length k + String.length s)%nat.
Proof.
  induction k as [|c k IH]; [reflexivity |].
  change (S (String.length (k +:+ s)) = S (String.length k + String.length s)).
  now f_equal.
Qed.

Lemma strings_TrimSuffix_append (k suffix : string) :
  strings_TrimSuffix (k +:+ suffix) suffix = k.
Proof.
  unfold strings_TrimSuffix, strings_HasSuffix.
  rewrite length_append.
  replace (String.length k + String.length suffix - String.length suffix)%nat
    with (String.length k) by lia.
  rewrite substring_append_r, String.eqb_refl, substring_append_l.
  destruct (String.length suffix <=? String.length k + String.length suffix)%nat
    eqn:Hle; [reflexivity |].
  apply Nat.leb_gt in Hle. lia.
Qed.

Lemma append_assoc_3 (a b c : string) : (a +:+ b) +:+ c = a +:+ b +:+ c.
Proof.
  induction a as [|x a IH]; [reflexivity |].
  change (String x ((a +:+ b) +:+ c) = String x (a +:+ b +:+ c)).
  now f_equal.
Qed.

(** X6.  The short description of an event ends with the name of its
    repository; for a kind [k ++ "Event"] outside the six kinds with a
    wording of their own it is [k ++ " in " ++ name]. *)
Theorem formatEventShort_shape (event : GitHubEvent) :
  (exists words,
     formatEventShort event = words +:+ " " +:+ Repo_Name (Event_Repo event)) /\
  (forall k,
     Type_ event = k +:+ "Event" ->
     ~ In k ["Push"; "Issues"; "Watch"; "Fork"; "Create"; "PullRequest"] ->
     formatEventShort event = k +:+ " in " +:+ Repo_Name (Event_Repo event)).
Proof.
  split.
  - unfold formatEventShort. cbv zeta.
    destruct (String.eqb _ "PushEvent"); [now exists "Pushed to" |].
    destruct (String.eqb _ "IssuesEvent"); [now exists "Issue in" |].
    destruct (String.eqb _ "WatchEvent"); [now exists "Starred" |].
    destruct (String.eqb _ "ForkEvent"); [now exists "Forked" |].
    destruct (String.eqb _ "CreateEvent"); [now exists "Created" |].
    destruct (String.eqb _ "PullRequestEvent"); [now exists "PR in" |].
    exists (strings_TrimSuffix (Type_ event) "Event" +:+ " in").
    now rewrite append_assoc_3.
  - intros k Hk Hnot. unfold formatEventShort. cbv zeta. rewrite Hk.
    repeat match goal with
           | |- context [if String.eqb (k +:+ "Event") ?lit then _ else _] =>
               destruct (String.eqb_spec (k +:+ "Event") lit) as [Heq|_]
           end;
      try (now rewrite strings_TrimSuffix_append);
      exfalso; apply Hnot;
      (apply (f_equal (fun s => strings_TrimSuffix s "Event")) in Heq;
       rewrite strings_TrimSuffix_append in Heq; subst k;
       cbn; tauto).
Qed.

Lemma formatEventShort_shape_witness :
  formatEventShort (mkEvent "DeleteEvent" "octocat/hello" 0) =
    "Delete in octocat/hello".
Proof.
  apply (proj2 (formatEventShort_shape (mkEvent "DeleteEvent" "octocat/hello" 0))
           "Delete" eq_refl).
  cbn. intros [H|[H|[H|[H|[H|[H|[]]]]]]]; discriminate H.
Defined.

(** ** [getTopRepos]: entries, ties and ignored events *)

Lemma innerLoop_is_sweep (l : list RepoInfo) (i : nat) :
  innerLoop (length l - i - 1) 0 l = Some (sweep (length l - i - 1) l).
Proof.
  destruct l as [|a l]; [reflexivity |].
  apply (innerLoop_sweep (length (a :: l) - i - 1) [] (a :: l)).
  cbn [length]. lia.
Qed.

Lemma outerLoop_sweeps n : forall i l,
  exists l', outerLoop n i l = Some l' /\ sweeps l l'.
Proof.
  induction n as [|n IH]; intros i l.
  - exists l. split; [reflexivity | constructor].
  - cbn [outerLoop]. rewrite innerLoop_is_sweep. cbn [mbind option_bind].
    destruct (IH (S i) (sweep (length l - i - 1) l)) as (l' & Hrun & Hs).
    exists l'. split; [exact Hrun |]. econstructor; exact Hs.
Qed.

Lemma sweep_withCount c n : forall l, withCount c (sweep n l) = withCount c l.
Proof.
  induction n as [|n IH]; intros l; [reflexivity |].
  destruct l as [|a [|b l]]; try reflexivity.
  cbn [sweep]. destruct (Count a <? Count b) eqn:Hab.
  - apply Z.ltb_lt in Hab. unfold withCount in *.
    rewrite filter_cons, IH, !filter_cons.
    repeat case_decide; try reflexivity; lia.
  - unfold withCount in *. rewrite filter_cons, IH, !filter_cons. reflexivity.
Qed.

Lemma sweep_sorted n : forall l,
  StronglySorted byCountDesc l -> sweep n l = l.
Proof.
  induction n as [|n IH]; intros l Hs; [reflexivity |].
  destruct l as [|a [|b l]]; try reflexivity.
  cbn [sweep]. apply StronglySorted_inv in Hs as [Hs Ha].
  apply Forall_cons in Ha as [Hab _]. unfold byCountDesc in Hab.
  destruct (Count a <? Count b) eqn:Hlt; [apply Z.ltb_lt in Hlt; lia |].
  now rewrite IH.
Qed.

Lemma sweeps_withCount c l l' : sweeps l l' -> withCount c l' = withCount c l.
Proof.
  induction 1 as [|l k l' _ IH]; [reflexivity |].
  now rewrite IH, sweep_withCount.
Qed.

Lemma sweeps_sorted l l' :
  sweeps l l' -> StronglySorted byCountDesc l -> l' = l.
Proof.
  induction 1 as [|l k l' _ IH]; intros Hs; [reflexivity |].
  rewrite (sweep_sorted k l Hs) in IH. now apply IH.
Qed.

(** X7.  The exchange sort never fails, keeps entries of equal count in
    the order it found them, and hands back a slice that is already in
    non-increasing order as it is. *)
Theorem bubbleSort_stable (repos : list RepoInfo) :
  exists sorted,
    bubbleSort repos = Some sorted /\
    (forall c, withCount c sorted = withCount c repos) /\
    (StronglySorted byCountDesc repos -> sorted = repos).
Proof.
  destruct (outerLoop_sweeps (length repos - 1) 0 repos) as (l' & Hrun & Hs).
  exists l'. split; [exact Hrun |]. split.
  - intros c. now apply sweeps_withCount.
  - now apply sweeps_sorted.
Qed.

Lemma tallyEvent_unnamed t ev :
  Repo_Name (Event_Repo ev) = "" -> tallyEvent t ev = t.
Proof. intros H. unfold tallyEvent. now rewrite H. Qed.

Lemma fold_tally_named events : forall t,
  fold_left tallyEvent (namedEvents events) t = fold_left tallyEvent events t.
Proof.
  induction events as [|ev events IH]; intros t; [reflexivity |].
  unfold namedEvents in *. rewrite filter_cons. case_decide as Hname.
  - cbn [fold_left]. apply IH.
  - cbn [fold_left]. rewrite IH. f_equal. symmetry.
    apply tallyEvent_unnamed.
    destruct (decide (Repo_Name (Event_Repo ev) = "")); [assumption | contradiction].
Qed.

(** X8.  Events without a repository name leave no trace in the result. *)
Theorem getTopRepos_ignores_unnamed
    (order : list string) (events : list GitHubEvent) :
  getTopRepos order (namedEvents events) = getTopRepos order events /\
  (forall name, name ∈ dom (repoCount (tallyEvents events)) -> name <> "").
Proof.
  split.
  - unfold getTopRepos, tallyEvents. now rewrite fold_tally_named.
  - assert (Hgen : forall evs t, repoCount t !! "" = None ->
              repoCount (fold_left tallyEvent evs t) !! "" = None).
    { induction evs as [|ev evs IH]; intros t Ht; [exact Ht |].
      cbn [fold_left]. apply IH. unfold tallyEvent.
      destruct (String.eqb_spec (Repo_Name (Event_Repo ev)) ""); [exact Ht |].
      cbn [repoCount]. now rewrite lookup_insert_ne. }
    intros name Hin Hname. subst name.
    apply elem_of_dom in Hin as [c Hc].
    assert (Hnone : repoCount (tallyEvents events) !! "" = None)
      by (apply Hgen; apply lookup_empty).
    rewrite Hnone in Hc. discriminate Hc.
Qed.

Lemma map_Name_rangeEntries order t : map Name (rangeEntries order t) = order.
Proof.
  unfold rangeEntries. rewrite map_map. cbn [repoEntry Name]. apply map_id.
Qed.

(** X9.  The result has one entry for each repository name that occurs
    in the events, and no other; an entry holds the exact number of
    events of its name and the addresses derived from the name. *)
Theorem getTopRepos_entries (order : list string) (events : list GitHubEvent) :
  Z.of_nat (length events) <= GoInt.max_int ->
  iterates order (tallyEvents events) ->
  exists result,
    getTopRepos order events = Some result /\
    NoDup (map Name result) /\
    (forall name,
       name ∈ map Name result <->
       name <> "" /\ exists ev, ev ∈ events /\ Repo_Name (Event_Repo ev) = name) /\
    Forall (fun r =>
      Count r = Z.of_nat (length (eventsOfRepo (Name r) events)) /\
      1 <= Count r /\
      URL r = "https://github.com/" +:+ Name r /\
      CloneURL r = URL r +:+ ".git" /\
      Description r = "") result.
Proof.
  intros Hlen Hiter. unfold getTopRepos.
  destruct (bubbleSort_sorts (rangeEntries order (tallyEvents events)))
    as (result & Hrun & Hperm & _).
  exists result. split; [exact Hrun |].
  assert (Hnames : map Name result ≡ₚ elements (dom (repoCount (tallyEvents events)))).
  { rewrite Hperm, map_Name_rangeEntries. exact Hiter. }
  assert (Hkey : forall name,
    name ∈ dom (repoCount (tallyEvents events)) <->
    name <> "" /\ eventsOfRepo name events <> []).
  { intros name. rewrite elem_of_dom, tally_count by exact Hlen.
    case_decide as Hd; split.
    - intros [c Hc]. discriminate Hc.
    - tauto.
    - intros _. tauto.
    - intros _. eexists. reflexivity. }
  split; [| split].
  - rewrite Hnames. apply NoDup_elements.
  - intros name. rewrite Hnames, elem_of_elements, Hkey.
    split; intros [Hne Hev]; (split; [exact Hne |]).
    + destruct (eventsOfRepo name events) as [|ev evs] eqn:Hevs; [contradiction |].
      assert (Hin : ev ∈ eventsOfRepo name events) by (rewrite Hevs; now left).
      apply list_elem_of_filter in Hin as [Hn Hin]. now exists ev.
    + destruct Hev as (ev & Hin & Hn). intros Hnil.
      assert (Hin' : ev ∈ eventsOfRepo name events)
        by (apply list_elem_of_filter; now split).
      rewrite Hnil in Hin'. now apply elem_of_nil in Hin'.
  - rewrite Forall_forall. intros r Hr. rewrite Hperm in Hr.
    unfold rangeEntries in Hr.
    apply list_elem_of_In, in_map_iff in Hr as (name & <- & Hname).
    apply list_elem_of_In in Hname. unfold iterates in Hiter.
    rewrite Hiter, elem_of_elements, Hkey in Hname. destruct Hname as [Hne Hev].
    cbn [repoEntry Name Count URL CloneURL Description].
    rewrite tally_count by exact Hlen.
    case_decide as Hd; [tauto |].
    change (default 0 (Some ?x)) with x.
    repeat split.
    destruct (eventsOfRepo name events); [contradiction | cbn [length]; lia].
Qed.

Lemma getTopRepos_entries_witness :
  let order := elements (dom (repoCount (tallyEvents scenarioEvents))) in
  exists result,
    getTopRepos order scenarioEvents = Some result /\
    NoDup (map Name result) /\
    (forall name,
       name ∈ map Name result <->
       name <> "" /\
       exists ev, ev ∈ scenarioEvents /\ Repo_Name (Event_Repo ev) = name) /\
    Forall (fun r =>
      Count r = Z.of_nat (length (eventsOfRepo (Name r) scenarioEvents)) /\
      1 <= Count r /\
      URL r = "https://github.com/" +:+ Name r /\
      CloneURL r = URL r +:+ ".git" /\
      Description r = "") result.
Proof.
  intros order. apply getTopRepos_entries.
  - vm_compute. discriminate.
  - unfold iterates, order. reflexivity.
Defined.

(** ** The two fetches: failures *)

Lemma fetchPages_fails server username n : forall fuel k allRepos,
  (n < fuel)%nat ->
  (forall j, (j < n)%nat -> fullPage (server (pageNumber (k + j))) = true) ->
  failedPage (server (pageNumber (k + n))) = true ->
  exists err,
    fetchPages server username fuel (pageNumber k) allRepos = Some (FetchError err) /\
    (forall body, server (pageNumber (k + n)) = Replied 404 body ->
                  err = "user '" +:+ username +:+ "' not found").
Proof.
  induction n as [|n IH]; intros fuel k allRepos Hfuel Hfull Hfail;
    (destruct fuel as [|fuel]; [lia |]); cbn [fetchPages].
  - rewrite Nat.add_0_r in Hfail |- *.
    destruct (server (pageNumber k)) as [err|err|status body];
      try (eexists; split; [reflexivity | intros; discriminate]).
    destruct (status =? 404) eqn:H404.
    { eexists; split; [reflexivity | reflexivity]. }
    destruct (status =? 200) eqn:H200; cbn [negb].
    + destruct body as [err|err|repos];
        try (eexists; split; [reflexivity |];
             intros body' Hb; injection Hb as -> _; discriminate H404).
      cbn [failedPage] in Hfail. rewrite H200 in Hfail. discriminate Hfail.
    + eexists; split; [reflexivity |].
      intros body' Hb; injection Hb as -> _; discriminate H404.
  - pose proof (Hfull 0%nat ltac:(lia)) as Hfirst.
    rewrite Nat.add_0_r in Hfirst.
    destruct (server (pageNumber k)) as [err|err|status [err|err|repos]];
      try discriminate.
    cbn [fullPage] in Hfirst.
    apply andb_true_iff in Hfirst as [H200 Hlong]. rewrite H200.
    apply Z.eqb_eq in H200. subst status. cbn [Z.eqb Pos.eqb negb].
    apply negb_true_iff in Hlong. rewrite Hlong.
    destruct (Z.of_nat (length repos) =? 0) eqn:Hempty.
    { apply Z.eqb_eq in Hempty. apply Z.ltb_ge in Hlong.
      unfold perPage in Hlong. lia. }
    rewrite pageNumber_S.
    destruct (IH fuel (S k) (allRepos ++ filter (fun repo => Private repo = false) repos))
      as (err & Hrun & H404).
    + lia.
    + intros j Hj. replace (S k + j)%nat with (k + S j)%nat by lia.
      apply Hfull. lia.
    + now replace (S k + n)%nat with (k + S n)%nat by lia.
    + exists err. split; [exact Hrun |].
      intros body Hb. apply (H404 body).
      now replace (S k + n)%nat with (k + S n)%nat by lia.
Qed.

(** X10.  A failure on any page fails the whole fetch: the repositories
    of the pages read before it are not handed back. A 404 reports that
    the user was not found. *)
Theorem fetchPublicRepos_all_or_nothing
    (server : Z -> PageReply) (username : string) (n fuel : nat) :
  (n < fuel)%nat ->
  (forall k, (k < n)%nat -> fullPage (server (pageNumber k)) = true) ->
  failedPage (server (pageNumber n)) = true ->
  exists err,
    fetchPublicRepos server username fuel = Some (FetchError err) /\
    (forall body, server (pageNumber n) = Replied 404 body ->
                  err = "user '" +:+ username +:+ "' not found").
Proof.
  intros Hfuel Hfull Hfail. unfold fetchPublicRepos.
  change 1 with (pageNumber 0).
  apply (fetchPages_fails server username n fuel 0%nat []); auto.
Qed.

Lemma fetchPublicRepos_all_or_nothing_witness :
  let server := fun page : Z =>
    if page =? 1 then Replied 200 (Decoded (repeat (mkRepo "hello" 5 false) 100))
    else Replied 404 (Decoded []) in
  exists err,
    fetchPublicRepos server "octocat" 5 = Some (FetchError err) /\
    (forall body, server (pageNumber 1) = Replied 404 body ->
                  err = "user 'octocat' not found").
Proof.
  intros server.
  apply (fetchPublicRepos_all_or_nothing server "octocat" 1 5).
  - lia.
  - intros k Hk. assert (k = 0%nat) as -> by lia. vm_compute. reflexivity.
  - vm_compute. reflexivity.
Defined.

Lemma append_inj_r (p a b : string) : p +:+ a = p +:+ b -> a = b.
Proof.
  induction p as [|c p IH]; [trivial |].
  intros H. injection H as H. now apply IH.
Qed.

(** X11.  For a status other than 200 and 404, [fetchPublicRepos] names
    the status in its error, so two such statuses give two texts, while
    [fetchGitHubActivity] gives the same text for both. *)
Theorem status_in_error_text
    (s1 s2 : Z) (username : string) (b1 b2 : PageBody) (a1 a2 : ActivityBody) :
  s1 <> 200 -> s1 <> 404 -> s2 <> 200 -> s2 <> 404 -> s1 <> s2 ->
  fetchPublicRepos (fun _ => Replied s1 b1) username 1 <>
    fetchPublicRepos (fun _ => Replied s2 b2) username 1 /\
  fetchGitHubActivity (ActivityReplied s1 a1) username =
    fetchGitHubActivity (ActivityReplied s2 a2) username /\
  fetchGitHubActivity (ActivityReplied s1 a1) username =
    inr "http error %!d(<nil>)".
Proof.
  intros H1 H1' H2 H2' Hne.
  unfold fetchPublicRepos, fetchGitHubActivity. cbn [fetchPages].
  apply Z.eqb_neq in H1, H1', H2, H2'. rewrite H1, H1', H2, H2'. cbn [negb].
  split; [| split; reflexivity].
  intros H. injection H as H. apply append_inj_r in H.
  apply Hne. now apply (inj pretty).
Qed.

Lemma status_in_error_text_witness :
  fetchPublicRepos (fun _ => Replied 403 (Decoded [])) "octocat" 1 <>
    fetchPublicRepos (fun _ => Replied 500 (Decoded [])) "octocat" 1 /\
  fetchGitHubActivity (ActivityReplied 403 (ActivityDecoded [])) "octocat" =
    fetchGitHubActivity (ActivityReplied 500 (ActivityDecoded [])) "octocat" /\
  fetchGitHubActivity (ActivityReplied 403 (ActivityDecoded [])) "octocat" =
    inr "http error %!d(<nil>)".
Proof.
  apply status_in_error_text; lia.
Defined.

(** ** [calculatePublicReposStats] *)

Lemma wrap_range z : GoInt.in_range (GoInt.wrap z).
Proof.
  unfold GoInt.in_range, GoInt.min_int, GoInt.max_int, GoInt.wrap.
  pose proof (Z.mod_pos_bound (z + 2 ^ 63) (2 ^ 64) ltac:(lia)). lia.
Qed.

Lemma wrap_add_l a b : GoInt.wrap (GoInt.wrap a + b) = GoInt.wrap (a + b).
Proof.
  unfold GoInt.wrap.
  replace ((a + 2 ^ 63) mod 2 ^ 64 - 2 ^ 63 + b + 2 ^ 63)
    with ((a + 2 ^ 63) mod 2 ^ 64 + b) by lia.
  rewrite Zplus_mod_idemp_l. do 2 f_equal. lia.
Qed.

Section Folds.

Variable key : PublicRepo -> Z.
Variable best : ReposSummary -> PublicRepo.
Hypothesis best_step : forall s r,
  best (summarizeRepo s r) = if key (best s) <? key r then r else best s.

Lemma firstGreatest_fold todo : forall done s,
  firstGreatest key (best s) done ->
  firstGreatest key (best (fold_left summarizeRepo todo s)) (done ++ todo).
Proof.
  induction todo as [|r todo IH]; intros done s Hdone.
  - now rewrite app_nil_r.
  - cbn [fold_left].
    replace (done ++ r :: todo) with ((done ++ [r]) ++ todo)
      by (now rewrite <- app_assoc).
    apply IH. rewrite best_step.
    destruct Hdone as (before & after & -> & Hb & Ha).
    destruct (key (best s) <? key r) eqn:Hlt.
    + apply Z.ltb_lt in Hlt.
      exists (before ++ best s :: after), []. split; [reflexivity |].
      split; [| constructor].
      apply Forall_app. split; [| constructor].
      * eapply Forall_impl; [exact Hb |]. cbv beta. intros; lia.
      * exact Hlt.
      * eapply Forall_impl; [exact Ha |]. cbv beta. intros; lia.
    + apply Z.ltb_ge in Hlt.
      exists before, (after ++ [r]). split; [now rewrite <- app_assoc |].
      split; [exact Hb |].
      apply Forall_app. split; [exact Ha |]. now constructor.
Qed.

End Folds.

Section Totals.

Variable field : PublicRepo -> Z.
Variable total : ReposSummary -> Z.
Hypothesis total_step : forall s r,
  total (summarizeRepo s r) = GoInt.add (total s) (field r).

Lemma total_fold l : forall s,
  GoInt.in_range (total s) ->
  total (fold_left summarizeRepo l s) =
    GoInt.wrap (total s + sumZ (map field l)).
Proof.
  induction l as [|r l IH]; intros s Hs.
  - cbn. rewrite Z.add_0_r. symmetry. now apply wrap_id.
  - cbn [fold_left map]. rewrite IH by (rewrite total_step; apply wrap_range).
    rewrite total_step. unfold GoInt.add. rewrite wrap_add_l.
    f_equal. unfold sumZ. cbn [foldr]. lia.
Qed.

End Totals.

Lemma languageCount_fold todo : forall done s,
  Z.of_nat (length (done ++ todo)) <= GoInt.max_int ->
  (forall lang,
     languageCount s !! lang =
       if decide (lang = "" \/ filter (fun r => Language r = lang) done = [])
       then None
       else Some (Z.of_nat (length (filter (fun r => Language r = lang) done)))) ->
  forall lang,
    languageCount (fold_left summarizeRepo todo s) !! lang =
      if decide (lang = "" \/
                 filter (fun r => Language r = lang) (done ++ todo) = [])
      then None
      else Some (Z.of_nat
             (length (filter (fun r => Language r = lang) (done ++ todo)))).
Proof.
  induction todo as [|r todo IH]; intros done s Hlen Hdone lang.
  - rewrite app_nil_r. apply Hdone.
  - cbn [fold_left].
    replace (done ++ r :: todo) with ((done ++ [r]) ++ todo) in *
      by (now rewrite <- app_assoc).
    apply IH; [exact Hlen |]. clear lang. intros lang.
    rewrite !length_app in Hlen. cbn [length] in Hlen.
    rewrite filter_app, filter_cons, filter_nil.
    pose proof (length_filter (fun r0 => Language r0 = lang) done) as Hle.
    cbn [summarizeRepo languageCount].
    destruct (String.eqb_spec (Language r) "") as [Hempty|Hempty].
    + rewrite Hdone.
      destruct (decide (Language r = lang)) as [Heq|Hne].
      * rewrite Hempty in Heq. subst lang.
        repeat case_decide; try reflexivity; tauto.
      * now rewrite app_nil_r.
    + destruct (decide (Language r = lang)) as [Heq|Hne].
      * subst lang. rewrite lookup_insert_eq, Hdone.
        case_decide as Hold; case_decide as Hnew.
        -- destruct Hnew as [Hnew|Hnew]; [contradiction |].
           now apply app_eq_nil in Hnew as [_ ?].
        -- destruct Hold as [Hold|Hold]; [contradiction |].
           rewrite Hold. reflexivity.
        -- destruct Hnew as [Hnew|Hnew]; [contradiction |].
           now apply app_eq_nil in Hnew as [_ ?].
        -- change (default 0 (Some ?x)) with x. rewrite incr_small by lia.
           rewrite length_app. cbn [length]. f_equal. lia.
      * rewrite lookup_insert_ne by exact Hne. rewrite Hdone.
        now rewrite app_nil_r.
Qed.

(** X12.  The summary of a repository list: nothing for an empty list;
    otherwise the totals are the sums of the stars and of the forks (on
    64 bits), the most starred and the most forked repository are the
    first ones with the greatest value, and each language is counted
    once per repository that names it. *)
Theorem calculatePublicReposStats_summary (repos : list PublicRepo) :
  (calculatePublicReposStats repos = None <-> repos = []) /\
  forall s, calculatePublicReposStats repos = Some s ->
    firstGreatest Stars (mostStarredRepo s) repos /\
    firstGreatest Forks (mostForkedRepo s) repos /\
    totalStars s = GoInt.wrap (sumZ (map Stars repos)) /\
    totalForks s = GoInt.wrap (sumZ (map Forks repos)) /\
    languageCount s !! "" = None /\
    (Z.of_nat (length repos) <= GoInt.max_int ->
     forall lang, lang <> "" ->
       default 0 (languageCount s !! lang) =
         Z.of_nat (length (filter (fun r => Language r = lang) repos))).
Proof.
  split.
  - destruct repos; cbn; split; intros H; congruence.
  - intros s Hs. destruct repos as [|first rest]; [discriminate |].
    cbn [calculatePublicReposStats] in Hs. injection Hs as <-.
    set (init := {| totalStars := 0; totalForks := 0; languageCount := ∅;
                    mostStarredRepo := first; mostForkedRepo := first |}).
    assert (Hlang : forall lang,
      languageCount init !! lang =
        if decide (lang = "" \/ filter (fun r => Language r = lang) [] = [])
        then None
        else Some (Z.of_nat (length (filter (fun r => Language r = lang)
                                       (@nil PublicRepo))))).
    { intros lang. cbn. rewrite lookup_empty. case_decide; [reflexivity | tauto]. }
    change (fold_left summarizeRepo (first :: rest) init)
      with (fold_left summarizeRepo rest (summarizeRepo init first)).
    split; [| split; [| split; [| split; [| split]]]].
    + apply (firstGreatest_fold Stars mostStarredRepo (fun _ _ => eq_refl) rest [first]).
      cbn. rewrite Z.ltb_irrefl. exists [], []. repeat split; constructor.
    + apply (firstGreatest_fold Forks mostForkedRepo (fun _ _ => eq_refl) rest [first]).
      cbn. rewrite Z.ltb_irrefl. exists [], []. repeat split; constructor.
    + rewrite (total_fold Stars totalStars (fun _ _ => eq_refl))
        by apply wrap_range.
      change (totalStars (summarizeRepo init first))
        with (GoInt.wrap (0 + Stars first)).
      rewrite wrap_add_l. f_equal; unfold sumZ; cbn [map foldr]; lia.
    + rewrite (total_fold Forks totalForks (fun _ _ => eq_refl))
        by apply wrap_range.
      change (totalForks (summarizeRepo init first))
        with (GoInt.wrap (0 + Forks first)).
      rewrite wrap_add_l. f_equal; unfold sumZ; cbn [map foldr]; lia.
    + assert (Hgen : forall l t, languageCount t !! "" = None ->
                languageCount (fold_left summarizeRepo l t) !! "" = None).
      { induction l as [|r l IH]; intros t Ht; [exact Ht |].
        cbn [fold_left]. apply IH. cbn [summarizeRepo languageCount].
        destruct (String.eqb_spec (Language r) ""); [exact Ht |].
        now rewrite lookup_insert_ne. }
      apply (Hgen (first :: rest) init). apply lookup_empty.
    + intros Hlen lang Hne.
      change (fold_left summarizeRepo rest (summarizeRepo init first))
        with (fold_left summarizeRepo (first :: rest) init).
      rewrite (languageCount_fold (first :: rest) [] init Hlen Hlang lang).
      cbn [app]. case_decide as Hd; [| reflexivity].
      destruct Hd as [Hd|Hd]; [contradiction |]. now rewrite Hd.
Qed.

Lemma calculatePublicReposStats_summary_witness :
  let repos := [mkRepo "hello" 5 false; mkRepo "world" 9 false;
                mkRepo "again" 9 false] in
  exists s,
    calculatePublicReposStats repos = Some s /\
    mostStarredRepo s = mkRepo "world" 9 false /\
    firstGreatest Stars (mostStarredRepo s) repos /\
    totalStars s = 23 /\
    default 0 (languageCount s !! "Go") = 3.
Proof.
  intros repos.
  destruct (calculatePublicReposStats repos) as [s|] eqn:Hs;
    [| vm_compute in Hs; discriminate Hs].
  exists s. split; [reflexivity |].
  destruct (proj2 (calculatePublicReposStats_summary repos) s Hs)
    as (Hstar & _ & Htotal & _ & _ & Hlang).
  split; [vm_compute in Hs; injection Hs as <-; reflexivity |].
  split; [exact Hstar |]. split; [rewrite Htotal; reflexivity |].
  rewrite Hlang; [reflexivity | vm_compute; discriminate | discriminate].
Defined.

(** ** What every reachable state satisfies *)

(** Field reads on field assignments, in the goal and the hypotheses. *)
Ltac field_reads :=
  cbn [fst snd andb orb negb
       username events repos publicRepos stats list_ table viewport help
       spinner progress search paginator currentView loading showHelp
       searchMode notification notifSuccess width height ready reposLoaded
       eventsLoaded
       set_events set_publicRepos set_stats set_list set_table set_viewport
       set_help set_spinner set_search set_currentView set_loading
       set_searchMode set_notification set_notifSuccess set_width set_height
       set_ready set_reposLoaded set_eventsLoaded] in *.

Ltac unfold_reducer :=
  unfold Update, handleSearchInput, handleKey, updateCurrentComponent,
    selectedRepo, nextView, checkLoadingComplete, updateRepoList,
    updateActivityList, updateStatsView, updateRepoTable, updateTableSize,
    filterRepoList, loadData in *;
  cbv zeta in *.

Ltac break_reducer := field_reads; repeat (case_match; field_reads).

Ltac list_view :=
  match goal with
  | H : isListView ?v = true |- _ => destruct v; try discriminate H
  end.

Lemma fetched_public server username fuel repos :
  fetchPublicRepos server username fuel = Some (Fetched repos) ->
  Forall (fun repo => Private repo = false) repos.
Proof.
  unfold fetchPublicRepos. change 1 with (pageNumber 0). intros Hrun.
  apply fetchPages_fetched in Hrun as (n & _ & _ & _ & ->).
  cbn [app]. apply Forall_forall. intros repo Hin.
  now apply list_elem_of_filter in Hin as [Hpub _].
Qed.

Section Reachable.
Context {B : Bubbles}.

Implicit Types (m : Model) (msg : Msg) (k : Key).

Lemma run_cons m msg msgs : run m (msg :: msgs) = run (fst (Update m msg)) msgs.
Proof. reflexivity. Qed.

Lemma run_app m msgs1 msgs2 : run m (msgs1 ++ msgs2) = run (run m msgs1) msgs2.
Proof. unfold run. apply fold_left_app. Qed.

Lemma searchOk_step m msg : searchOk m -> searchOk (fst (Update m msg)).
Proof.
  unfold searchOk. intros H. destruct m. field_reads.
  destruct msg; unfold_reducer; break_reducer;
    try exact H; try discriminate; try reflexivity; intros; try discriminate;
    try list_view; auto.
Qed.

Lemma loadFlagsOk_step m msg : loadFlagsOk m -> loadFlagsOk (fst (Update m msg)).
Proof.
  unfold loadFlagsOk. intros [H1 H2]. destruct m. field_reads.
  destruct msg; unfold_reducer; break_reducer;
    repeat match goal with
           | H : _ && _ = true |- _ => apply andb_true_iff in H as [? ?]
           | H : _ && _ = false |- _ => apply andb_false_iff in H
           end;
    subst; (split; [intros; try discriminate; auto | intros; try discriminate; auto]);
    try (destruct_or?; congruence).
Qed.

Lemma dataOk_step m msg : deliverable msg -> dataOk m -> dataOk (fst (Update m msg)).
Proof.
  unfold dataOk. intros Hmsg [H1 H2]. destruct m. field_reads.
  destruct msg as [w h|rs err|evs st err|s b| |tag|k|tag];
    try solve [unfold_reducer; break_reducer; split; assumption].
  destruct err as [e|]; [unfold_reducer; break_reducer; split; assumption |].
  cbn [deliverable] in Hmsg. destruct Hmsg as (server & u & fuel & Hrun).
  apply fetched_public in Hrun.
  unfold_reducer; break_reducer; split; assumption.
Qed.

Lemma NewModel_ok (user : string) :
  searchOk (NewModel user) /\ loadFlagsOk (NewModel user) /\
  dataOk (NewModel user).
Proof.
  split; [| split].
  - intros H. discriminate H.
  - split; intros; discriminate.
  - split; [reflexivity | constructor].
Qed.

(** X13.  Search mode is only ever on in the list view. *)
Theorem search_mode_in_list_view (user : string) (msgs : list Msg) :
  let m := run (NewModel user) msgs in
  searchMode m = true -> currentView m = repoListView.
Proof.
  cbv zeta. change (searchOk (run (NewModel user) msgs)).
  generalize (proj1 (NewModel_ok user)). generalize (NewModel user).
  induction msgs as [|msg msgs IH]; intros m Hm; [exact Hm |].
  rewrite run_cons. apply IH. now apply searchOk_step.
Qed.


(** X14.  In every state the program reaches, [loading] is off only once
    [ready] is on, and both loaded flags together mean ready and not
    loading; so the loading screen is drawn exactly while [ready] is
    off, and once it is gone it never comes back. *)
Theorem loading_screen_until_ready (user : string) (msgs more : list Msg) :
  let m := run (NewModel user) msgs in
  loadFlagsOk m /\
  showsLoadingView m = negb (ready m) /\
  (showsLoadingView m = false ->
   showsLoadingView (run (NewModel user) (msgs ++ more)) = false).
Proof.
  cbv zeta.
  assert (Hok : forall l, loadFlagsOk (run (NewModel user) l)).
  { intros l. generalize (proj1 (proj2 (NewModel_ok user))).
    generalize (NewModel user).
    induction l as [|msg l IH]; intros m Hm; [exact Hm |].
    rewrite run_cons. apply IH. now apply loadFlagsOk_step. }
  assert (Hshow : forall l,
    showsLoadingView (run (NewModel user) l) = negb (ready (run (NewModel user) l))).
  { intros l. destruct (Hok l) as [H1 _]. unfold showsLoadingView.
    destruct (ready (run (NewModel user) l)); [reflexivity |].
    destruct (loading (run (NewModel user) l)); [reflexivity |].
    discriminate (H1 eq_refl). }
  split; [apply Hok |]. split; [apply Hshow |].
  rewrite !Hshow. intros Hready. apply negb_false_iff in Hready.
  apply negb_false_iff. rewrite run_app. now apply ready_run.
Qed.


(** X15.  As long as the load messages are those the load commands make,
    the statistics of the model are those of its events and its
    repository set holds no private repository. *)
Theorem model_data_consistent (user : string) (msgs : list Msg) :
  Forall deliverable msgs ->
  let m := run (NewModel user) msgs in
  stats m = calculateStats (events m) /\
  Forall (fun repo => Private repo = false) (publicRepos m).
Proof.
  intros Hmsgs. cbv zeta. change (dataOk (run (NewModel user) msgs)).
  generalize (proj2 (proj2 (NewModel_ok user))). generalize (NewModel user).
  induction Hmsgs as [|msg msgs Hmsg _ IH]; intros m Hm; [exact Hm |].
  rewrite run_cons. apply IH. now apply dataOk_step.
Qed.

End Reachable.

Lemma search_mode_in_list_view_witness :
  let m := run (@NewModel plainBubbles "octocat") [KeyMsg (runeKey "/")] in
  searchMode m = true /\ currentView m = repoListView.
Proof.
  split; [reflexivity |].
  exact (@search_mode_in_list_view plainBubbles "octocat"
           [KeyMsg (runeKey "/")] eq_refl).
Defined.

Lemma loading_screen_until_ready_witness :
  let loads := [reposLoadedMsg [] None; eventsLoadedMsg [] zeroStats None] in
  let m := run (@NewModel plainBubbles "octocat") loads in
  showsLoadingView m = false /\
  showsLoadingView
    (run (@NewModel plainBubbles "octocat") (loads ++ [KeyMsg (runeKey "r")]))
    = false.
Proof.
  split; [reflexivity |].
  exact (proj2 (proj2 (@loading_screen_until_ready plainBubbles "octocat"
           [reposLoadedMsg [] None; eventsLoadedMsg [] zeroStats None]
           [KeyMsg (runeKey "r")])) eq_refl).
Defined.

Lemma model_data_consistent_witness :
  let msgs :=
    [loadEventsCmd_msg (ActivityReplied 200 (ActivityDecoded scenarioEvents))
       "octocat";
     reposLoadedMsg [mkRepo "hello" 5 false; mkRepo "world" 1 false] None] in
  let m := run (@NewModel plainBubbles "octocat") msgs in
  stats m = calculateStats (events m) /\
  Forall (fun repo => Private repo = false) (publicRepos m).
Proof.
  apply (@model_data_consistent plainBubbles).
  repeat constructor.
  exists mixedServer, "octocat", 1%nat. vm_compute. reflexivity.
Defined.

(** ** Keys: quitting, searching, acting, refreshing *)

Section Keys.
Context {B : Bubbles}.

Implicit Types (m : Model) (msg : Msg) (k : Key).

(** X16.  The program quits on a quit key outside search mode and on
    nothing else, and the model is left as it was. *)
Theorem quits_only_on_quit_key m msg :
  snd (Update m msg) = tea_Quit <->
  exists k, msg = KeyMsg k /\ searchMode m = false /\
            key_Matches k keys_Quit = true /\ fst (Update m msg) = m.
Proof.
  split.
  - intros H.
    destruct msg as [w h|rs err|evs st err|s b| |tag|k|tag];
      try (unfold Update in H; discriminate H).
    + unfold Update in H. destruct (spinner_Update _ _). discriminate H.
    + exists k. split; [reflexivity |].
      unfold Update in H |- *. destruct (searchMode m) eqn:Hs.
      { unfold handleSearchInput in H.
        destruct (Key_Type k); try destruct (textinput_Update _ _);
          discriminate H. }
      split; [reflexivity |].
      assert (Hcomp : exists tag, snd (updateCurrentComponent m k) = componentCmd tag)
        by apply updateCurrentComponent_core.
      destruct Hcomp as [tag Hcomp].
      unfold handleKey in H |- *.
      destruct (key_Matches k keys_Quit); [now split |].
      exfalso.
      destruct (key_Matches k keys_Help); [discriminate H |].
      destruct (key_Matches k keys_Tab); [discriminate H |].
      destruct (key_Matches k keys_Search).
      { destruct (isListView (currentView m)); [discriminate H |].
        rewrite Hcomp in H. discriminate H. }
      destruct (key_Matches k keys_Refresh); [discriminate H |].
      destruct (key_Matches k keys_Clone).
      { destruct (selectedRepo m); [discriminate H |].
        rewrite Hcomp in H. discriminate H. }
      destruct (key_Matches k keys_Copy).
      { destruct (selectedRepo m); [discriminate H |].
        rewrite Hcomp in H. discriminate H. }
      destruct (key_Matches k keys_Open).
      { destruct (selectedRepo m); [discriminate H |].
        rewrite Hcomp in H. discriminate H. }
      rewrite Hcomp in H. discriminate H.
    + unfold Update in H.
      destruct (loading m); [destruct (spinner_Update _ _) |]; discriminate H.
  - intros (k & -> & Hs & Hq & _). unfold Update, handleKey.
    now rewrite Hs, Hq.
Qed.

(** X17.  In search mode a key goes to the text input: it neither quits
    nor changes the view, the load flags, the data or the notification;
    escape, control-C and enter leave search mode, any other key stays
    in it. *)
Theorem search_mode_captures_keys m k :
  searchMode m = true ->
  let m' := fst (Update m (KeyMsg k)) in
  snd (Update m (KeyMsg k)) <> tea_Quit /\
  currentView m' = currentView m /\
  loading m' = loading m /\ ready m' = ready m /\
  reposLoaded m' = reposLoaded m /\ eventsLoaded m' = eventsLoaded m /\
  publicRepos m' = publicRepos m /\ events m' = events m /\
  stats m' = stats m /\ notification m' = notification m /\
  searchMode m' =
    match Key_Type k with
    | KeyEsc | KeyCtrlC | KeyEnter => false
    | _ => true
    end.
Proof.
  intros Hs. destruct m. field_reads. subst.
  unfold_reducer; break_reducer; repeat split; discriminate.
Qed.

Lemma selectedRepo_some m (repo : PublicRepo) :
  selectedRepo m = Some repo ->
  currentView m = repoListView /\ publicRepos m <> [] /\
  list_SelectedItem (list_ m) = Some (repoItem repo).
Proof.
  unfold selectedRepo. intros H.
  destruct (currentView m); try discriminate H.
  destruct (0 <? Z.of_nat (length (publicRepos m))) eqn:Hlen; [| discriminate H].
  destruct (list_SelectedItem (list_ m)) as [[r|ev]|]; try discriminate H.
  injection H as ->. repeat split.
  intros Hnil. rewrite Hnil in Hlen. discriminate Hlen.
Qed.

Ltac no_action H :=
  exfalso; cbn [snd] in H; destruct H as [H|[H|H]]; discriminate H.

(** X18.  A clone, copy or open command is issued only outside search
    mode, in the list view, with a non-empty repository set, for the
    repository item that is selected; the model is left as it was. *)
Theorem action_needs_selected_repo m msg (repo : PublicRepo) :
  snd (Update m msg) = cloneRepoCmd repo \/
  snd (Update m msg) = copyURLCmd repo \/
  snd (Update m msg) = openInBrowserCmd repo ->
  (exists k, msg = KeyMsg k) /\
  searchMode m = false /\ currentView m = repoListView /\
  publicRepos m <> [] /\
  list_SelectedItem (list_ m) = Some (repoItem repo) /\
  fst (Update m msg) = m.
Proof.
  intros H.
  destruct msg as [w h|rs err|evs st err|s b| |tag|k|tag];
    try (unfold Update in H; no_action H).
  - unfold Update in H. destruct (spinner_Update _ _). no_action H.
  - unfold Update in H |- *. destruct (searchMode m) eqn:Hs.
    { unfold handleSearchInput in H.
      destruct (Key_Type k); try destruct (textinput_Update _ _); no_action H. }
    assert (Hcomp : exists tag, snd (updateCurrentComponent m k) = componentCmd tag)
      by apply updateCurrentComponent_core.
    destruct Hcomp as [tag Hcomp].
    unfold handleKey in H |- *.
    destruct (key_Matches k keys_Quit); [no_action H |].
    destruct (key_Matches k keys_Help); [no_action H |].
    destruct (key_Matches k keys_Tab); [no_action H |].
    destruct (key_Matches k keys_Search).
    { destruct (isListView (currentView m)); [no_action H |].
      rewrite Hcomp in H. no_action H. }
    destruct (key_Matches k keys_Refresh); [no_action H |].
    split; [now exists k |]. split; [reflexivity |].
    destruct (key_Matches k keys_Clone);
      [| destruct (key_Matches k keys_Copy);
         [| destruct (key_Matches k keys_Open)]];
      try (destruct (selectedRepo m) as [r|] eqn:Hsel;
           [| rewrite Hcomp in H; no_action H];
           cbn [snd fst] in H |- *;
           destruct H as [H|[H|H]]; try discriminate H;
           injection H as ->;
           destruct (selectedRepo_some m repo Hsel) as (Hv & Hne & Hitem);
           repeat split; assumption).
    rewrite Hcomp in H. no_action H.
  - unfold Update in H. destruct (loading m); [destruct (spinner_Update _ _) |];
      exfalso; cbn [snd] in H; destruct H as [H|[H|H]]; discriminate H.
Qed.

(** X19.  A second refresh right after a refresh changes nothing in the
    model; both ask for the two loads. *)
Theorem refresh_twice m k :
  searchMode m = false -> key_Matches k keys_Refresh = true ->
  let once := Update m (KeyMsg k) in
  let twice := Update (fst once) (KeyMsg k) in
  fst twice = fst once /\ snd twice = snd once /\
  snd once = tea_Batch [loadReposCmd (username m); loadEventsCmd (username m)].
Proof.
  intros Hs Hr.
  destruct (refresh_key_branch k Hr) as (Hq & Hh & Ht & Hsr).
  assert (Hone : forall m', searchMode m' = false ->
    Update m' (KeyMsg k) =
      (set_notifSuccess true (set_notification "🔄 Refreshing data..."
         (set_eventsLoaded false (set_reposLoaded false (set_loading true m')))),
       loadData m')).
  { intros m' Hs'. unfold Update, handleKey.
    rewrite Hs', Hq, Hh, Ht, Hsr, Hr. reflexivity. }
  cbv zeta. rewrite (Hone m Hs). cbn [fst snd].
  rewrite Hone by exact Hs. cbn [fst snd].
  split; [reflexivity |]. split; reflexivity.
Qed.

End Keys.

Lemma search_mode_captures_keys_witness :
  let m := run (@NewModel plainBubbles "octocat") [KeyMsg (runeKey "/")] in
  let m' := fst (Update m (KeyMsg (runeKey "q"))) in
  snd (Update m (KeyMsg (runeKey "q"))) <> tea_Quit /\
  searchMode m' = true /\ textinput_Value (search m') = "q".
Proof.
  pose proof (@search_mode_captures_keys plainBubbles
                (run (@NewModel plainBubbles "octocat") [KeyMsg (runeKey "/")])
                (runeKey "q") eq_refl) as H.
  cbv zeta in *. destruct H as (Hq & _ & _ & _ & _ & _ & _ & _ & _ & _ & Hs).
  split; [exact Hq |]. split; [exact Hs | reflexivity].
Defined.

Lemma action_needs_selected_repo_witness :
  let m := fst (Update (@NewModel plainBubbles "octocat")
                  (reposLoadedMsg [mkRepo "hello" 5 false] None)) in
  snd (Update m (KeyMsg (runeKey "c"))) = cloneRepoCmd (mkRepo "hello" 5 false) /\
  currentView m = repoListView /\
  fst (Update m (KeyMsg (runeKey "c"))) = m.
Proof.
  assert (H : snd (Update
                (fst (Update (@NewModel plainBubbles "octocat")
                        (reposLoadedMsg [mkRepo "hello" 5 false] None)))
                (KeyMsg (runeKey "c"))) = cloneRepoCmd (mkRepo "hello" 5 false))
    by reflexivity.
  split; [exact H |].
  destruct (@action_needs_selected_repo plainBubbles _ _ _ (or_introl H))
    as (_ & _ & Hv & _ & _ & Hm).
  split; [exact Hv | exact Hm].
Defined.

Lemma refresh_twice_witness :
  let m := @loadedModel plainBubbles "octocat" in
  let once := Update m (KeyMsg (runeKey "r")) in
  let twice := Update (fst once) (KeyMsg (runeKey "r")) in
  fst twice = fst once /\ snd twice = snd once /\
  snd once = tea_Batch [loadReposCmd "octocat"; loadEventsCmd "octocat"].
Proof.
  exact (@refresh_twice plainBubbles (@loadedModel plainBubbles "octocat")
           (runeKey "r") eq_refl eq_refl).
Defined.

(** ** The description of a repository item *)

Lemma substring_length (n : nat) : forall s,
  (n <= String.length s)%nat -> String.length (String.substring 0 n s) = n.
Proof.
  induction n as [|n IH]; intros s Hn.
  - now destruct s.
  - destruct s as [|c s]; [cbn in Hn; lia |].
    change (S (String.length (String.substring 0 n s)) = S n).
    f_equal. apply IH. cbn in Hn. lia.
Qed.

Lemma substring_prefix (n : nat) : forall s,
  (n <= String.length s)%nat ->
  exists rest, s = String.substring 0 n s +:+ rest.
Proof.
  induction n as [|n IH]; intros s Hn.
  - exists s. now destruct s.
  - destruct s as [|c s]; [cbn in Hn; lia |].
    destruct (IH s) as [rest Hrest]; [cbn in Hn; lia |].
    exists rest.
    change (String c s = String c (String.substring 0 n s +:+ rest)).
    now f_equal.
Qed.

Section ItemTexts.
Context {B : Bubbles}.

(** X20.  The description shown for a repository is at most 80 bytes
    long; a longer one is cut to its first 77 bytes followed by three
    dots, an empty one is replaced, any other is shown as it is. *)
Theorem shownDescription_bounded (repo : PublicRepo) :
  (String.length (shownDescription repo) <= 80)%nat /\
  (PR_Description repo = "" -> shownDescription repo = "No description") /\
  (PR_Description repo <> "" ->
   (String.length (PR_Description repo) <= 80)%nat ->
   shownDescription repo = PR_Description repo) /\
  ((80 < String.length (PR_Description repo))%nat ->
   exists kept rest,
     PR_Description repo = kept +:+ rest /\ String.length kept = 77%nat /\
     shownDescription repo = kept +:+ "..." /\
     String.length (shownDescription repo) = 80%nat) /\
  repoItem_Description repo =
    "🍴 " +:+ formatNumber (Forks repo) +:+ " • " +:+ shownDescription repo.
Proof.
  assert (Htext : repoItem_Description repo =
            "🍴 " +:+ formatNumber (Forks repo) +:+ " • " +:+ shownDescription repo)
    by reflexivity.
  revert Htext. generalize (repoItem_Description repo). intros text Htext.
  unfold shownDescription in *. cbv zeta in *.
  destruct (String.eqb_spec (PR_Description repo) "") as [Hempty|Hfull].
  - change (80 <? String.length "No description")%nat with false in *.
    cbv iota in *.
    split; [cbn; lia |]. split; [reflexivity |].
    split; [intros H; now contradiction H |].
    split; [| exact Htext].
    rewrite Hempty. cbn. lia.
  - destruct (80 <? String.length (PR_Description repo))%nat eqn:Hlong.
    + apply Nat.ltb_lt in Hlong.
      assert (Hkept : String.length (String.substring 0 77 (PR_Description repo)) = 77%nat)
        by (apply substring_length; lia).
      assert (Hlen : String.length
                (String.substring 0 77 (PR_Description repo) +:+ "...") = 80%nat)
        by (rewrite length_append, Hkept; reflexivity).
      split; [rewrite Hlen; lia |]. split; [intros; contradiction |].
      split; [intros; lia |]. split; [| exact Htext].
      intros _. destruct (substring_prefix 77 (PR_Description repo)) as [rest Hrest];
        [lia |].
      exists (String.substring 0 77 (PR_Description repo)), rest.
      repeat split; assumption.
    + apply Nat.ltb_ge in Hlong.
      split; [exact Hlong |]. split; [intros; contradiction |].
      split; [reflexivity |]. split; [intros; lia | exact Htext].
Qed.

End ItemTexts.

Lemma shownDescription_bounded_witness :
  let repo :=
    {| PR_Name := "hello"; FullName := "octocat/hello";
       PR_Description :=
         "A description that runs well past the eighty bytes the list item has room for, so it is cut";
       PR_URL := ""; PR_CloneURL := ""; Stars := 0; Forks := 0; Language := "";
       PR_CreatedAt := 0; UpdatedAt := 0; Private := false |} in
  exists kept rest,
    PR_Description repo = kept +:+ rest /\ String.length kept = 77%nat /\
    shownDescription repo = kept +:+ "..." /\
    String.length (shownDescription repo) = 80%nat.
Proof.
  intros repo.
  apply (proj1 (proj2 (proj2 (proj2 (@shownDescription_bounded plainBubbles repo))))).
  vm_compute. lia.
Defined.

(** ** Data changes on load messages only *)

Section DataFrame.
Context {B : Bubbles}.


End DataFrame.

(** ** [main] *)

Section MainFacts.

Variable TrimSpace : string -> string.


End MainFacts.

